(** * Explore 3D images (of cells): a model of [plot_3d_image_processing.py]

    The tutorial script is a linear sequence of library calls on one
    three-dimensional array.  This development embeds the parts of the
    script that carry logic of their own:

    - [Spacing]: the arithmetic on the three-element spacing vector
      (lines 65-71), over exact rationals;
    - [Script]: the module-level control flow, with its single
      [try]/[except TypeError] block (lines 82-86);
    - [Helpers]: the helper functions [show_plane], [display], [plot_hist],
      [slice_in_3D] and [explore_slices], as the sequence of rendering
      calls each one issues;
    - [Exposure]: gamma correction and percentile clipping, two of the
      contrast transforms the script calls.

    Floating-point numbers are modelled by exact numbers (rationals, or
    reals where a square root is needed); rounding is not modelled, except
    in [SpacingBinary64], which repeats the spacing arithmetic in binary64
    floating-point numbers. *)

From Stdlib Require Import String DecimalString ZArith QArith Qminmax List Bool Lia Lqa.
From Stdlib Require Reals Lra Floats.
Import ListNotations.

(** ** Spacing (lines 65-71) *)

Module Spacing.
Local Open Scope Q_scope.

Definition vec := list Q.

(** [a * b] on one-dimensional arrays: elementwise, a length-one operand is
    broadcast, any other length mismatch raises [ValueError] ([None]). *)
Fixpoint zip_mul (v w : vec) : vec :=
  match v, w with
  | x :: v', y :: w' => x * y :: zip_mul v' w'
  | _, _ => []
  end.

Definition mul_broadcast (v w : vec) : option vec :=
  match v, w with
  | [x], _ => Some (map (fun y => x * y) w)
  | _, [y] => Some (map (fun x => x * y) v)
  | _, _ => if Nat.eqb (length v) (length w) then Some (zip_mul v w) else None
  end.

(** [v / c] for an array [v] and a scalar [c]. *)
Definition div_scalar (v : vec) (c : Q) : vec := map (fun x => x / c) v.

(** [v * k] for an array [v] and a scalar [k], in exact arithmetic; the
    rounded product of binary64 numbers is [SpacingBinary64.mul_scalar]. *)
Definition mul_scalar (v : vec) (k : Q) : vec := map (fun x => x * k) v.

(** [v / v[2]]: the normalisation of line 71; [v[2]] raises [IndexError]
    ([None]) on a vector with fewer than three components. *)
Definition normalize (v : vec) : option vec :=
  match nth_error v 2 with
  | Some c => Some (div_scalar v c)
  | None => None
  end.

(** Line 65. *)
Definition original_spacing : vec := [0.29; 0.065; 0.065].

(** Line 68. *)
Definition rescaled_spacing : option vec :=
  mul_broadcast original_spacing [1; 4; 4].

(** Line 71. *)
Definition spacing : option vec :=
  match rescaled_spacing with
  | Some r => normalize r
  | None => None
  end.

Definition positive3 (v : vec) : Prop :=
  length v = 3%nat /\ Forall (fun x => 0 < x) v.

Lemma normalize_is_mul_scalar (v : vec) (c : Q) :
  nth_error v 2 = Some c -> normalize v = Some (mul_scalar v (/ c)).
Proof.
  intros H. unfold normalize. rewrite H. reflexivity.
Qed.

Lemma rescaled_spacing_value :
  rescaled_spacing = Some [0.29 * 1; 0.065 * 4; 0.065 * 4].
Proof. reflexivity. Qed.

Lemma zip_mul_positive (v w : vec) :
  Forall (fun x => 0 < x) v -> Forall (fun x => 0 < x) w ->
  Forall (fun x => 0 < x) (zip_mul v w).
Proof.
  intros Hv. revert w.
  induction Hv as [|x v Hx Hv IH]; intros w Hw; simpl.
  - constructor.
  - destruct Hw as [|y w Hy Hw]; constructor.
    + apply Qmult_lt_0_compat; assumption.
    + apply IH; assumption.
Qed.

Lemma div_scalar_positive (v : vec) (c : Q) :
  0 < c -> Forall (fun x => 0 < x) v ->
  Forall (fun x => 0 < x) (div_scalar v c).
Proof.
  intros Hc Hv. unfold div_scalar. apply Forall_map.
  eapply Forall_impl; [|exact Hv].
  intros x Hx. simpl. unfold Qdiv.
  apply Qmult_lt_0_compat; [exact Hx|]. apply Qinv_lt_0_compat. exact Hc.
Qed.

Lemma normalize_positive (v r : vec) :
  positive3 v -> normalize v = Some r -> positive3 r.
Proof.
  intros [Hlen Hpos] Hn. unfold normalize in Hn.
  destruct (nth_error v 2) as [c|] eqn:Hc; [|discriminate].
  injection Hn as <-. split.
  - unfold div_scalar. rewrite length_map. exact Hlen.
  - apply div_scalar_positive; [|exact Hpos].
    apply nth_error_In in Hc.
    rewrite Forall_forall in Hpos. apply Hpos. exact Hc.
Qed.

Lemma rescaling_positive (v r : vec) :
  positive3 v -> mul_broadcast v [1; 4; 4] = Some r -> positive3 r.
Proof.
  intros [Hlen Hpos] Hr.
  destruct v as [|a [|b [|c [|d v]]]]; try discriminate Hlen.
  simpl in Hr. injection Hr as <-. split; [reflexivity|].
  apply (zip_mul_positive [a; b; c] [1; 4; 4]); [exact Hpos|].
  repeat constructor.
Qed.

Lemma original_spacing_positive : positive3 original_spacing.
Proof. split; [reflexivity|]. repeat constructor. Qed.

(** The normalised spacing is a multiple of the rescaled spacing; it is
    not a multiple of the spacing the microscope reported, because the
    rescaling by [1, 4, 4] in between is not uniform. *)
Remark spacing_not_multiple_of_original_spacing :
  forall k s, spacing = Some s -> ~ Forall2 Qeq s (mul_scalar original_spacing k).
Proof.
  intros k s Hs Heq. vm_compute in Hs. injection Hs as <-.
  unfold mul_scalar, original_spacing in Heq. simpl in Heq.
  inversion Heq as [|x y l l' H1 Hrest]; subst.
  inversion Hrest as [|x' y' l2 l2' H2 _]; subst.
  lra.
Qed.

(** C7: the spacing is a strictly positive 3-vector at every step: the
    microscope spacing, the spacing rescaled by [1, 4, 4] and the
    normalised spacing each have exactly three components, all strictly
    greater than zero. *)
Theorem spacing_strictly_positive_at_every_step :
  positive3 original_spacing /\
  (exists r, rescaled_spacing = Some r /\ positive3 r) /\
  (exists s, spacing = Some s /\ positive3 s).
Proof.
  pose proof original_spacing_positive as H0.
  destruct rescaled_spacing as [r|] eqn:Hr; [|discriminate Hr].
  pose proof (rescaling_positive _ _ H0 Hr) as H1.
  assert (Hs : exists s, spacing = Some s).
  { unfold spacing. rewrite Hr. unfold normalize.
    destruct H1 as [Hlen _].
    destruct r as [|a [|b [|c r]]]; try discriminate Hlen.
    simpl. eauto. }
  destruct Hs as [s Hs]. split; [exact H0|]. split.
  - exists r. split; [reflexivity|exact H1].
  - exists s. split; [exact Hs|].
    unfold spacing in Hs. rewrite Hr in Hs.
    exact (normalize_positive _ _ H1 Hs).
Qed.

(** *** Further properties of the spacing arithmetic *)

(** Lines 68-71 as a function of the spacing the microscope reports. *)
Definition spacing_of (reported : vec) : option vec :=
  match mul_broadcast reported [1; 4; 4] with
  | Some r => normalize r
  | None => None
  end.

Lemma spacing_of_original : spacing_of original_spacing = spacing.
Proof. reflexivity. Qed.

(** X1: [normalize] raises exactly on a vector that has no component of index
    2, and otherwise returns a vector of the same length. *)
Theorem normalize_fails_only_on_short_vectors (v : vec) :
  (normalize v = None <-> (length v < 3)%nat) /\
  (forall r, normalize v = Some r -> length r = length v).
Proof.
  unfold normalize. split.
  - destruct (nth_error v 2) as [c|] eqn:Hc.
    + split; [discriminate|]. intros Hlen.
      assert (Hsome : nth_error v 2 <> None) by (rewrite Hc; discriminate).
      apply nth_error_Some in Hsome. lia.
    + split; [|reflexivity]. intros _. apply nth_error_None in Hc. lia.
  - intros r Hr. destruct (nth_error v 2) as [c|]; [|discriminate Hr].
    injection Hr as <-. unfold div_scalar. apply length_map.
Qed.







(** X6: Lines 68-71 raise, at the product with [[1, 4, 4]], exactly on a
    reported spacing whose number of components is neither 1 nor 3. *)
Theorem spacing_of_fails_on_other_lengths (reported : vec) :
  spacing_of reported = None <->
  length reported <> 1%nat /\ length reported <> 3%nat.
Proof.
  unfold spacing_of.
  destruct reported as [|a [|b [|c [|d rest]]]]; simpl.
  - split; [intros _; split; discriminate|reflexivity].
  - split; [discriminate|]. intros [H _]. congruence.
  - split; [intros _; split; discriminate|reflexivity].
  - split; [discriminate|]. intros [_ H]. congruence.
  - split; [intros _; split; discriminate|reflexivity].
Qed.

End Spacing.

(** ** Spacing in binary64 floating-point numbers (lines 65-71)

    The same arithmetic as in [Spacing], on the numbers numpy computes
    with. *)

Module SpacingBinary64.
Import Floats.
Local Open Scope float_scope.
#[local] Set Warnings "-inexact-float".

Definition vec := list float.

Fixpoint zip_mul (v w : vec) : vec :=
  match v, w with
  | x :: v', y :: w' => x * y :: zip_mul v' w'
  | _, _ => []
  end.

Definition mul_broadcast (v w : vec) : option vec :=
  match v, w with
  | [x], _ => Some (map (fun y => x * y) w)
  | _, [y] => Some (map (fun x => x * y) v)
  | _, _ => if Nat.eqb (length v) (length w) then Some (zip_mul v w) else None
  end.

Definition div_scalar (v : vec) (c : float) : vec := map (fun x => x / c) v.

Definition mul_scalar (v : vec) (k : float) : vec := map (fun x => x * k) v.

Definition normalize (v : vec) : option vec :=
  match nth_error v 2 with
  | Some c => Some (div_scalar v c)
  | None => None
  end.

(** Line 65. *)
Definition original_spacing : vec := [0.29; 0.065; 0.065].

(** Line 68. *)
Definition rescaled_spacing : option vec :=
  mul_broadcast original_spacing [1; 4; 4].

(** Line 71. *)
Definition spacing : option vec :=
  match rescaled_spacing with
  | Some r => normalize r
  | None => None
  end.

Example spacing_value : spacing = Some [0x1.1d89d89d89d89p+0; 1; 1].
Proof. vm_compute. reflexivity. Qed.

(** The property C6 states, with the original spacing vector of line 65:
    the normalised spacing is that vector multiplied by one scalar. *)
Definition spacing_is_a_multiple_of_original_spacing : Prop :=
  exists (k : Q) (s : Spacing.vec),
    Spacing.spacing = Some s /\
    Forall2 Qeq s (Spacing.mul_scalar Spacing.original_spacing k).

(** C6, as stated, fails: between the original spacing and the
    normalisation stands the rescaling by [[1, 4, 4]] (line 68), which is
    not uniform; the first component of the normalised spacing is the
    original one times [1 / 0.26], the other two are the original ones
    times [4 / 0.26]. *)
Lemma spacing_is_no_multiple_of_original_spacing :
  ~ spacing_is_a_multiple_of_original_spacing.
Proof.
  intros (k & s & Hs & Hmul).
  exact (Spacing.spacing_not_multiple_of_original_spacing k s Hs Hmul).
Qed.

(** C6, amended: the spacing normalisation of line 71 is a scalar
    multiplication of the three-element rescaled spacing vector (the
    original spacing times [[1, 4, 4]]): the normalised spacing equals
    that vector multiplied by the single scalar [1 / rescaled_spacing[2]],
    and by no other scalar; the equality holds in exact arithmetic and,
    on the numbers of the script, in binary64 arithmetic too. *)
Theorem normalization_scales_the_rescaled_spacing :
  (exists r c s,
      Spacing.rescaled_spacing = Some r /\ length r = 3%nat /\
      nth_error r 2 = Some c /\
      Spacing.spacing = Some s /\ length s = 3%nat /\
      s = Spacing.mul_scalar r (/ c)%Q /\
      forall k : Q, Forall2 Qeq s (Spacing.mul_scalar r k) <-> (k == / c)%Q) /\
  (exists r c s,
      rescaled_spacing = Some r /\ length r = 3%nat /\
      nth_error r 2 = Some c /\
      spacing = Some s /\ length s = 3%nat /\
      s = mul_scalar r (1 / c)).
Proof.
  split.
  - exists [0.29 * 1; 0.065 * 4; 0.065 * 4]%Q, (0.065 * 4)%Q.
    eexists. split; [reflexivity|]. split; [reflexivity|].
    split; [reflexivity|]. split; [reflexivity|]. split; [reflexivity|].
    split; [reflexivity|].
    intros k. unfold Spacing.mul_scalar. cbn [map]. split.
    + intros H. inversion H as [|x y l l' H1 _]; subst.
      clear H. symmetry. apply (Qmult_inj_l _ _ (0.29 * 1)%Q); [discriminate|].
      exact H1.
    + intros Hk. repeat constructor; rewrite Hk; reflexivity.
  - eexists _, _, _. split; [reflexivity|]. split; [reflexivity|].
    split; [reflexivity|]. split; [reflexivity|]. split; [reflexivity|].
    vm_compute. reflexivity.
Qed.

End SpacingBinary64.

(** ** Python values shared by the models below *)

Module Py.
Local Open Scope string_scope.

(** [str(n)] for an integer. *)
Definition str_int (n : Z) : string := NilZero.string_of_int (Z.to_int n).

(** [str(t)] for a tuple of integers with two components or more. *)
Definition str_tuple (t : list Z) : string :=
  "(" ++ String.concat ", " (map str_int t) ++ ")".

(** A raised exception: the names of the classes in the method resolution
    order of its class (the class itself first), and what [str(e)] gives. *)
Record exn := { exn_mro : list string; exn_str : string }.

(** [isinstance(e, cls)], which is what an [except cls] clause tests. *)
Definition isinstance (e : exn) (cls : string) : bool :=
  existsb (String.eqb cls) (exn_mro e).

Definition TypeError (msg : string) : exn :=
  {| exn_mro := ["TypeError"; "Exception"; "BaseException"; "object"];
     exn_str := msg |}.

Definition IndexError (msg : string) : exn :=
  {| exn_mro := ["IndexError"; "LookupError"; "Exception"; "BaseException";
                 "object"];
     exn_str := msg |}.

Definition ValueError (msg : string) : exn :=
  {| exn_mro := ["ValueError"; "Exception"; "BaseException"; "object"];
     exn_str := msg |}.

End Py.

(** ** The module-level control flow (lines 1-322) *)

Module Script.
Import Py.
Local Open Scope string_scope.

(** What running one statement does: it completes, having printed some
    lines, or it raises. *)
Inductive outcome :=
| Done (printed : list string)
| Raised (e : exn).

(** The behaviour of the libraries the script calls: the outcome of the
    statement that starts at each source line. *)
Definition world := nat -> outcome.

(** The statements of the module body.  A statement is named by the line
    it starts at; the only compound statement of the module body is the
    [try] of lines 82-86, whose handler is
    [except TypeError as e: print(str(e))]. *)
Inductive item :=
| Stmt (line : nat)
| TryExceptTypeError (body : list nat).

Inductive result :=
| Finished (stdout : list string)
| Uncaught (e : exn) (stdout : list string).

Fixpoint run_block (w : world) (body : list nat) (out : list string)
  : result :=
  match body with
  | [] => Finished out
  | l :: rest =>
      match w l with
      | Done p => run_block w rest (out ++ p)
      | Raised e => Uncaught e out
      end
  end.

Definition run_item (w : world) (it : item) (out : list string) : result :=
  match it with
  | Stmt l => run_block w [l] out
  | TryExceptTypeError body =>
      match run_block w body out with
      | Finished out' => Finished out'
      | Uncaught e out' =>
          if isinstance e "TypeError"
          then Finished (out' ++ [exn_str e])
          else Uncaught e out'
      end
  end.

Fixpoint exec (w : world) (items : list item) (out : list string) : result :=
  match items with
  | [] => Finished out
  | it :: rest =>
      match run_item w it out with
      | Finished out' => exec w rest out'
      | Uncaught e out' => Uncaught e out'
      end
  end.

(** Lines 1-75: docstring, imports, loading the data, the spacing. *)
Definition prelude : list item :=
  map Stmt [1; 45; 46; 47; 49; 50; 51; 58; 60; 61; 62; 65; 68; 71; 73; 74; 75]%nat.

(** Lines 82-86: [fig, ax = plt.subplots()] at line 83 and
    [ax.imshow(data, cmap='gray')] at line 84. *)
Definition imshow_attempt : item := TryExceptTypeError [83; 84]%nat.

(** Lines 94-322. *)
Definition remainder : list item :=
  map Stmt [94; 102; 103; 105; 106; 107; 115; 122; 137; 195; 214; 233;
            242; 243; 245; 246; 248; 250; 251; 252; 254; 255; 256;
            267; 269; 275; 281; 283; 284; 286; 287; 288; 290; 291; 292;
            301; 303; 307; 314; 315; 316; 317; 319; 320; 322]%nat.

Definition script : list item := prelude ++ imshow_attempt :: remainder.

(** Modelled from the spec: the 2D-only display call [ax.imshow] belongs to
    the plotting library, which is not part of the repository.  It displays
    grayscale and RGB(A) 2D images (comment of lines 89-91), that is arrays
    of shape [(M, N)], [(M, N, 3)] and [(M, N, 4)], and fails with a
    type/shape error on any other array. *)
Definition imshow (shape : list Z) : outcome :=
  match shape with
  | [_; _] => Done []
  | [_; _; c] =>
      if (c =? 3)%Z || (c =? 4)%Z then Done []
      else Raised (TypeError ("Invalid shape " ++ str_tuple shape ++
                              " for image data"))
  | _ => Raised (TypeError ("Invalid shape " ++ str_tuple shape ++
                            " for image data"))
  end.

(** A run in which every library call succeeds silently, except that
    [ax.imshow] at line 84 is given an array of the shape [shape]. *)
Definition quiet_world (shape : list Z) : world :=
  fun l => if Nat.eqb l 84 then imshow shape else Done [].

Lemma exec_app (w : world) (xs ys : list item) (out : list string) :
  exec w (xs ++ ys) out =
  match exec w xs out with
  | Finished out' => exec w ys out'
  | Uncaught e out' => Uncaught e out'
  end.
Proof.
  revert out. induction xs as [|x xs IH]; intros out; simpl.
  - reflexivity.
  - destruct (run_item w x out) as [out'|e out']; [apply IH|reflexivity].
Qed.

Lemma stmt_raise_uncaught (w : world) (pre post : list item) (l : nat)
      (e : exn) (out out' : list string) :
  exec w pre out = Finished out' -> w l = Raised e ->
  exec w (pre ++ Stmt l :: post) out = Uncaught e out'.
Proof.
  intros Hpre Hl. rewrite exec_app, Hpre. simpl. rewrite Hl. reflexivity.
Qed.

Lemma exec_all_done (w : world) (ls : list nat) (out : list string) :
  (forall l, In l ls -> exists p, w l = Done p) ->
  exists out', exec w (map Stmt ls) out = Finished out'.
Proof.
  revert out. induction ls as [|l ls IH]; intros out Hall; simpl.
  - eauto.
  - destruct (Hall l (or_introl eq_refl)) as [p Hp]. rewrite Hp.
    apply IH. intros l' Hl'. apply Hall. right. exact Hl'.
Qed.

Example imshow_rejects_the_volume :
  imshow [60; 256; 256]%Z =
  Raised (TypeError "Invalid shape (60, 256, 256) for image data").
Proof. reflexivity. Qed.

Example imshow_accepts_a_plane : imshow [256; 256]%Z = Done [].
Proof. reflexivity. Qed.

(** The lines of the statements of the script, in order. *)
Definition script_lines : list nat :=
  flat_map (fun it => match it with
                      | Stmt l => [l]
                      | TryExceptTypeError body => body
                      end) script.

(** The property C1 states: the [TypeError] of [ax.imshow] (line 84) is
    the only error the script handles.  Whenever one statement of the
    script raises, the others completing, and this is not a [TypeError]
    raised at line 84, the run ends with that exception uncaught. *)
Definition only_the_imshow_TypeError_is_handled : Prop :=
  forall (w : world) (l : nat) (e : exn),
    In l script_lines -> w l = Raised e ->
    (forall l', l' <> l -> exists p, w l' = Done p) ->
    ~ (l = 84%nat /\ isinstance e "TypeError" = true) ->
    exists out, exec w script [] = Uncaught e out.

(** A run in which [plt.subplots()] at line 83 raises a [TypeError] and
    every other statement completes silently. *)
Definition subplots_fails : world :=
  fun l => if Nat.eqb l 83 then Raised (TypeError "no display") else Done [].

(** C1, as stated, fails: the body of the [try] holds [plt.subplots()]
    (line 83) besides [ax.imshow] (line 84), and the handler catches a
    [TypeError] of either.  When [plt.subplots()] raises a [TypeError] the
    script prints its message and runs to its end. *)
Lemma a_TypeError_of_subplots_is_handled_as_well :
  exec subplots_fails script [] = Finished ["no display"] /\
  ~ only_the_imshow_TypeError_is_handled.
Proof.
  split; [reflexivity|].
  intros H.
  destruct (H subplots_fails 83%nat (TypeError "no display"))
    as [out Hout].
  - unfold script_lines. simpl. tauto.
  - reflexivity.
  - intros l' Hl'. unfold subplots_fails.
    destruct (Nat.eqb_spec l' 83); [contradiction|eauto].
  - intros [Hl _]. discriminate Hl.
  - discriminate Hout.
Qed.

Lemma flat_map_Stmt (ls : list nat) :
  flat_map (fun it => match it with
                      | Stmt l => [l]
                      | TryExceptTypeError body => body
                      end) (map Stmt ls) = ls.
Proof.
  induction ls as [|l ls IH]; [reflexivity|]. cbn [map flat_map app].
  rewrite IH. reflexivity.
Qed.

Lemma stmts_single_fault (w : world) (ls : list nat) (l : nat) (e : exn)
      (out : list string) :
  In l ls -> w l = Raised e ->
  (forall l', l' <> l -> exists p, w l' = Done p) ->
  exists out', exec w (map Stmt ls) out = Uncaught e out'.
Proof.
  revert out. induction ls as [|l0 ls IH]; intros out Hin Hl Hothers.
  - destruct Hin.
  - cbn [map exec run_item run_block].
    destruct (Nat.eq_dec l0 l) as [->|Hne].
    + rewrite Hl. eauto.
    + destruct (Hothers l0 Hne) as [p Hp]. rewrite Hp.
      destruct Hin as [Heq|Hin]; [contradiction|].
      apply IH; assumption.
Qed.

(** C1, amended: when [ax.imshow(data)] at line 84 raises a [TypeError],
    the [try] block of lines 82-86 catches it, prints [str(e)], and the
    script goes on with the statements that follow (and runs to its end
    when none of them raises).  The handler catches a [TypeError] raised
    in the body of the [try], by [ax.imshow] or by [plt.subplots()] before
    it, and nothing else: an exception of another class raised in the
    body, and any exception raised by a statement outside the block, ends
    the run uncaught; the block is the only compound statement of the
    module body. *)
Theorem only_a_TypeError_of_the_try_body_is_caught
        (w : world) (e : exn) (o out : list string)
        (Hsubplots : w 83%nat = Done o)
        (Himshow : w 84%nat = Raised e)
        (Hclass : isinstance e "TypeError" = true) :
  exec w (imshow_attempt :: remainder) out =
    exec w remainder (out ++ o ++ [exn_str e])%list
  /\ ((forall l, In (Stmt l) (prelude ++ remainder)%list -> exists p, w l = Done p) ->
      exists out', exec w script [] = Finished out')
  /\ (forall w' e' out',
        w' 83%nat = Raised e' ->
        exec w' (imshow_attempt :: remainder) out' =
          if isinstance e' "TypeError"
          then exec w' remainder (out' ++ [exn_str e'])%list
          else Uncaught e' out')
  /\ (forall w' e' o' out',
        w' 83%nat = Done o' -> w' 84%nat = Raised e' ->
        exec w' (imshow_attempt :: remainder) out' =
          if isinstance e' "TypeError"
          then exec w' remainder (out' ++ o' ++ [exn_str e'])%list
          else Uncaught e' (out' ++ o')%list)
  /\ (forall w' pre l post e' out',
        script = (pre ++ Stmt l :: post)%list ->
        exec w' pre [] = Finished out' -> w' l = Raised e' ->
        exec w' script [] = Uncaught e' out')
  /\ (forall w' l e',
        In l script_lines -> w' l = Raised e' ->
        (forall l', l' <> l -> exists p, w' l' = Done p) ->
        ~ ((l = 83%nat \/ l = 84%nat) /\ isinstance e' "TypeError" = true) ->
        exists out', exec w' script [] = Uncaught e' out')
  /\ Forall (fun it => it = imshow_attempt \/ exists l, it = Stmt l) script.
Proof.
  split; [|split; [|split; [|split; [|split; [|split]]]]].
  - cbn [exec run_item imshow_attempt run_block].
    rewrite Hsubplots, Himshow, Hclass, app_assoc. reflexivity.
  - intros Hall. unfold script. rewrite exec_app.
    destruct (exec_all_done w
      [1; 45; 46; 47; 49; 50; 51; 58; 60; 61; 62; 65; 68; 71; 73; 74; 75]%nat [])
      as [out1 H1].
    { intros l Hl. apply Hall. apply in_or_app. left.
      unfold prelude. apply in_map. exact Hl. }
    fold prelude in H1. rewrite H1.
    cbn [exec run_item imshow_attempt run_block].
    rewrite Hsubplots, Himshow, Hclass.
    apply exec_all_done.
    intros l Hl. apply Hall. apply in_or_app. right.
    unfold remainder. apply in_map. exact Hl.
  - intros w' e' out' H83.
    cbn [exec run_item imshow_attempt run_block]. rewrite H83.
    destruct (isinstance e' "TypeError"); reflexivity.
  - intros w' e' o' out' H83 H84.
    cbn [exec run_item imshow_attempt run_block]. rewrite H83, H84.
    destruct (isinstance e' "TypeError"); [|reflexivity].
    rewrite app_assoc. reflexivity.
  - intros w' pre l post e' out' Hsplit Hpre Hl. rewrite Hsplit.
    eapply stmt_raise_uncaught; eassumption.
  - intros w' l e' Hin Hl Hothers Hnot.
    assert (Hdone : forall ls out0, ~ In l ls ->
               exists out1, exec w' (map Stmt ls) out0 = Finished out1).
    { intros ls out0 Hnotin. apply exec_all_done. intros l' Hl'.
      apply Hothers. intros ->. contradiction. }
    unfold script_lines, script in Hin. rewrite flat_map_app in Hin.
    cbn [flat_map] in Hin. unfold prelude, remainder in Hin.
    rewrite !flat_map_Stmt in Hin.
    unfold script. rewrite exec_app.
    destruct (in_dec Nat.eq_dec l
      [1; 45; 46; 47; 49; 50; 51; 58; 60; 61; 62; 65; 68; 71; 73; 74; 75]%nat)
      as [Hpre|Hpre].
    + destruct (stmts_single_fault w' _ l e' [] Hpre Hl Hothers) as [out1 H1].
      fold prelude in H1. rewrite H1. eauto.
    + destruct (Hdone _ [] Hpre) as [out1 H1]. fold prelude in H1.
      rewrite H1. cbn [exec run_item imshow_attempt run_block].
      destruct (Nat.eq_dec l 83) as [->|H83].
      { rewrite Hl. destruct (isinstance e' "TypeError") eqn:Hc; [|eauto].
        exfalso. apply Hnot. split; [left; reflexivity|reflexivity]. }
      destruct (Hothers 83%nat) as [p83 Hp83]; [congruence|]. rewrite Hp83.
      destruct (Nat.eq_dec l 84) as [->|H84].
      { rewrite Hl. destruct (isinstance e' "TypeError") eqn:Hc; [|eauto].
        exfalso. apply Hnot. split; [right; reflexivity|reflexivity]. }
      destruct (Hothers 84%nat) as [p84 Hp84]; [congruence|]. rewrite Hp84.
      apply in_app_or in Hin as [Hin|Hin]; [contradiction|].
      apply in_app_or in Hin as [Hin|Hin].
      { simpl in Hin. destruct Hin as [Hin|[Hin|[]]]; congruence. }
      unfold remainder.
      exact (stmts_single_fault w' _ l e' _ Hin Hl Hothers).
  - unfold script, prelude, remainder.
    apply Forall_app. split; [|constructor; [left; reflexivity|]];
      apply Forall_map, Forall_forall; intros l _; right; exists l; reflexivity.
Qed.

Lemma only_a_TypeError_of_the_try_body_is_caught_witness :
  exec (quiet_world [60; 256; 256]%Z) script [] =
  Finished ["Invalid shape (60, 256, 256) for image data"].
Proof.
  pose proof (only_a_TypeError_of_the_try_body_is_caught
                (quiet_world [60; 256; 256]%Z)
                (TypeError "Invalid shape (60, 256, 256) for image data")
                [] [] eq_refl eq_refl eq_refl) as [Hcaught _].
  unfold script. rewrite exec_app.
  change (exec (quiet_world [60; 256; 256]%Z) prelude []) with (Finished []).
  cbv beta iota. rewrite Hcaught. reflexivity.
Defined.

(** *** Further properties of the control flow *)

Definition stdout_of (r : result) : list string :=
  match r with
  | Finished out => out
  | Uncaught _ out => out
  end.

(** The body of the [try] ends without an exception the handler lets
    through: both statements complete, or the first one that raises raises
    a [TypeError]. *)
Definition try_body_handled (w : world) : Prop :=
  match w 83%nat with
  | Raised e => isinstance e "TypeError" = true
  | Done _ =>
      match w 84%nat with
      | Raised e => isinstance e "TypeError" = true
      | Done _ => True
      end
  end.

Lemma run_block_stdout (w : world) (body : list nat) (out : list string) :
  exists suffix, stdout_of (run_block w body out) = (out ++ suffix)%list.
Proof.
  revert out. induction body as [|l body IH]; intros out; simpl.
  - exists []. rewrite app_nil_r. reflexivity.
  - destruct (w l) as [p|e].
    + destruct (IH (out ++ p)%list) as [suffix Hs].
      exists (p ++ suffix)%list. rewrite Hs, app_assoc. reflexivity.
    + exists []. rewrite app_nil_r. reflexivity.
Qed.

Lemma run_item_stdout (w : world) (it : item) (out : list string) :
  exists suffix, stdout_of (run_item w it out) = (out ++ suffix)%list.
Proof.
  destruct it as [l|body]; unfold run_item.
  - apply run_block_stdout.
  - destruct (run_block_stdout w body out) as [suffix Hs].
    destruct (run_block w body out) as [out'|e out']; simpl in Hs |- *.
    + exists suffix. exact Hs.
    + destruct (isinstance e "TypeError"); simpl.
      * exists (suffix ++ [exn_str e])%list.
        rewrite Hs, app_assoc. reflexivity.
      * exists suffix. exact Hs.
Qed.

(** Whatever the libraries do, a run only adds to what was printed before:
    the output at the end of a run, normal or not, starts with the output
    at its beginning. *)
Theorem exec_only_appends_to_stdout (w : world) (items : list item)
        (out : list string) :
  exists suffix, stdout_of (exec w items out) = (out ++ suffix)%list.
Proof.
  revert out. induction items as [|it items IH]; intros out; simpl.
  - exists []. rewrite app_nil_r. reflexivity.
  - destruct (run_item_stdout w it out) as [s1 H1].
    destruct (run_item w it out) as [out'|e out']; simpl in H1.
    + destruct (IH out') as [s2 H2]. exists (s1 ++ s2)%list.
      rewrite H2, H1, app_assoc. reflexivity.
    + exists s1. exact H1.
Qed.

Lemma exec_stmts_finished (w : world) (ls : list nat) (out : list string) :
  (exists out', exec w (map Stmt ls) out = Finished out') <->
  (forall l, In l ls -> exists p, w l = Done p).
Proof.
  split.
  - revert out. induction ls as [|l ls IH]; intros out [out' H] l' Hl'.
    + destruct Hl'.
    + simpl in H. destruct (w l) as [p|e] eqn:Hw; [|discriminate H].
      destruct Hl' as [<-|Hl']; [eauto|].
      apply (IH (out ++ p)%list); [eauto|exact Hl'].
  - apply exec_all_done.
Qed.

Lemma in_map_Stmt (l : nat) (ls : list nat) :
  In (Stmt l) (map Stmt ls) <-> In l ls.
Proof.
  split.
  - intros H. apply in_map_iff in H as (l' & Heq & Hin).
    injection Heq as ->. exact Hin.
  - apply in_map.
Qed.

(** X7: The script runs to its end exactly when every statement outside the
    [try] completes and the body of the [try] completes or raises a
    [TypeError] (at [plt.subplots()] or at [ax.imshow]). *)
Theorem script_finishes_iff (w : world) :
  (exists out, exec w script [] = Finished out) <->
  (forall l, In (Stmt l) (prelude ++ remainder)%list -> exists p, w l = Done p)
  /\ try_body_handled w.
Proof.
  unfold script. rewrite exec_app. split.
  - intros [out H].
    destruct (exec w prelude []) as [out1|e1 out1] eqn:Hpre;
      [|discriminate H].
    cbn [exec] in H.
    destruct (run_item w imshow_attempt out1) as [out2|e2 out2] eqn:Htry;
      [|discriminate H].
    split.
    + intros l Hl. apply in_app_or in Hl as [Hl|Hl].
      * apply in_map_Stmt in Hl.
        exact (proj1 (exec_stmts_finished w _ []) (ex_intro _ _ Hpre) l Hl).
      * apply in_map_Stmt in Hl.
        exact (proj1 (exec_stmts_finished w _ out2) (ex_intro _ _ H) l Hl).
    + unfold try_body_handled. unfold run_item, imshow_attempt in Htry.
      cbn [run_block] in Htry.
      destruct (w 83%nat) as [p1|e1].
      * destruct (w 84%nat) as [p2|e2']; [exact I|].
        destruct (isinstance e2' "TypeError"); [reflexivity|discriminate].
      * destruct (isinstance e1 "TypeError"); [reflexivity|discriminate].
  - intros [Hall Htry].
    destruct (proj2 (exec_stmts_finished w _ [])
                (fun l Hl => Hall l (in_or_app _ _ _
                   (or_introl (proj2 (in_map_Stmt l _) Hl))))) as [out1 H1].
    fold prelude in H1. rewrite H1. cbn [exec].
    assert (Hitem : exists out2, run_item w imshow_attempt out1 = Finished out2).
    { unfold try_body_handled in Htry. unfold run_item, imshow_attempt.
      cbn [run_block].
      destruct (w 83%nat) as [p1|e1].
      - destruct (w 84%nat) as [p2|e2]; [eauto|]. rewrite Htry. eauto.
      - rewrite Htry. eauto. }
    destruct Hitem as [out2 H2]. rewrite H2.
    apply exec_stmts_finished.
    intros l Hl. apply Hall. apply in_or_app. right.
    apply in_map_Stmt. exact Hl.
Qed.

(** X8: The handler does not tell the two statements of the [try] apart: a
    [TypeError] raised by [plt.subplots()] at line 83 is printed and
    dropped as well, and [ax.imshow] is then not called at all. *)
Theorem subplots_TypeError_is_caught_too
        (w : world) (e : exn) (out : list string)
        (Hsubplots : w 83%nat = Raised e)
        (Hclass : isinstance e "TypeError" = true) :
  exec w (imshow_attempt :: remainder) out =
    exec w remainder (out ++ [exn_str e])%list /\
  (forall w', (forall l, l <> 84%nat -> w' l = w l) ->
              exec w' script [] = exec w script []).
Proof.
  split.
  - cbn [exec run_item imshow_attempt run_block].
    rewrite Hsubplots, Hclass. reflexivity.
  - intros w' Hsame.
    assert (Hblock : forall ls out0, ~ In 84%nat ls ->
              exec w' (map Stmt ls) out0 = exec w (map Stmt ls) out0).
    { induction ls as [|l ls IH]; intros out0 Hnot; simpl; [reflexivity|].
      rewrite (Hsame l) by (intros ->; apply Hnot; left; reflexivity).
      destruct (w l); [|reflexivity].
      apply IH. intros Hin. apply Hnot. right. exact Hin. }
    unfold script. rewrite !exec_app.
    unfold prelude at 1 2. rewrite Hblock by (simpl; intuition discriminate).
    fold prelude. destruct (exec w prelude []) as [out1|]; [|reflexivity].
    cbn [exec run_item imshow_attempt run_block].
    rewrite (Hsame 83%nat) by discriminate.
    rewrite Hsubplots, Hclass.
    unfold remainder. apply Hblock. simpl. intuition discriminate.
Qed.

Lemma subplots_TypeError_is_caught_too_witness :
  exec (fun l => if Nat.eqb l 83 then Raised (TypeError "no backend")
                 else Done [])
       (imshow_attempt :: remainder) [] =
  exec (fun l => if Nat.eqb l 83 then Raised (TypeError "no backend")
                 else Done [])
       remainder ["no backend"].
Proof.
  apply (subplots_TypeError_is_caught_too
           (fun l => if Nat.eqb l 83 then Raised (TypeError "no backend")
                     else Done [])
           (TypeError "no backend") [] eq_refl eq_refl).
Defined.

End Script.

(** ** The helper functions (lines 94-211) *)

Module Helpers.
Import Py.
Local Open Scope string_scope.
Local Open Scope list_scope.
Local Open Scope Z_scope.

Section Render.

(** The type of one pixel intensity. *)
Variable pixel : Type.

Definition image2d := list (list pixel).
Definition image3d := list image2d.

(** [len(a)] and [a.shape] for a three-dimensional array. *)
Definition len {A : Type} (l : list A) : Z := Z.of_nat (length l).

Definition shape (d : image3d) : list Z :=
  [len d; len (hd [] d); len (hd [] (hd [] d))].

(** [a[i]] along the first axis: a negative index counts from the end, an
    index below [-len(a)] or above [len(a) - 1] raises [IndexError]. *)
Definition getitem {A : Type} (a : list A) (i : Z) : option A :=
  if (0 <=? i) && (i <? len a) then nth_error a (Z.to_nat i)
  else if (- len a <=? i) && (i <? 0) then nth_error a (Z.to_nat (i + len a))
  else None.

(** [a[::step]] for a positive [step]. *)
Fixpoint every_from {A : Type} (skip step : nat) (a : list A) : list A :=
  match a with
  | [] => []
  | x :: a' =>
      match skip with
      | O => x :: every_from (step - 1) step a'
      | S k => every_from k step a'
      end
  end.

(** [a[::step]]: a negative step walks the array from its last element,
    a zero step raises [ValueError]. *)
Definition slice_step {A : Type} (a : list A) (step : Z) : option (list A) :=
  match step with
  | 0 => None
  | Z.pos p => Some (every_from 0 (Pos.to_nat p) a)
  | Z.neg p => Some (every_from 0 (Pos.to_nat p) (rev a))
  end.

(** [a.ravel()]. *)
Definition ravel (d : image3d) : list pixel := concat (concat d).

(** The module-level state a helper can read: the array [data] of
    line 58. *)
Record globals := { g_data : image3d }.

Inductive fill_value := NaN.

(** What [ax.imshow] is given: an array, or the result of
    [ski.util.montage(planes, padding_width=.., fill=..)]. *)
Inductive image :=
| Array2D (p : image2d)
| Montage (planes : list image2d) (padding_width : Z) (fill : fill_value).

Inductive color :=
| RGBA (r g b a : Q)
| Named (name : string).

(** An axes object: one a helper was given as its argument, or the [k]-th
    one the helper created itself. *)
Inductive handle :=
| Given (id : nat)
| Created (k : nat).

(** The calls into the plotting libraries. *)
Inductive call :=
| plt_subplots (figsize : Z * Z)
| fig_add_subplot (position : Z) (projection : string)
| plt_show
| interact (lo hi : Z)
| imshow (ax : handle) (img : image) (cmap : string)
| set_axis_off (ax : handle)
| set_title (ax : handle) (title : string)
| hist (ax : handle) (values : list pixel) (bins : Z)
| ticklabel_format (ax : handle) (axis style : string) (scilimits : Z * Z)
| scatter3D (ax : handle) (xs ys zs : list Z)
| add_collection3d (ax : handle) (verts : list (list (list Z)))
                   (facecolors : color) (linewidths : Z) (edgecolors : string)
| set_xlabel (ax : handle) (label : string)
| set_ylabel (ax : handle) (label : string)
| set_zlabel (ax : handle) (label : string)
| set_xlim (ax : handle) (lo hi : Z)
| get_lim (ax : handle) (dim : string)
| auto_scale_xyz (ax : handle) (X Y Z : list Q).

(** An axes argument: its handle, and what it answers to
    [get_xlim()], [get_ylim()] and [get_zlim()] after the calls issued so
    far. *)
Record axes := {
  ax_handle : handle;
  ax_lim : list call -> string -> Q * Q
}.

(** *** Issuing calls: a trace and error monad *)

Inductive res (A : Type) :=
| Ok (a : A)
| Raise (e : exn).
Arguments Ok {A} a.
Arguments Raise {A} e.

(** A computation extends the trace of the calls issued so far, and
    returns or raises. *)
Definition M (A : Type) : Type := list call -> list call * res A.

Definition ret {A : Type} (a : A) : M A := fun h => (h, Ok a).

Definition bind {A B : Type} (m : M A) (k : A -> M B) : M B :=
  fun h =>
    match m h with
    | (h', Ok a) => k a h'
    | (h', Raise e) => (h', Raise e)
    end.

Definition emit (c : call) : M unit := fun h => (h ++ [c], Ok tt).

Definition raise {A : Type} (e : exn) : M A := fun h => (h, Raise e).

Definition ask_lim (ax : axes) (dim : string) : M (Q * Q) :=
  fun h => (h ++ [get_lim (ax_handle ax) dim], Ok (ax_lim ax h dim)).

Definition run {A : Type} (m : M A) : list call * res A := m [].

Notation "x <- m ;; k" := (bind m (fun x => k))
  (at level 61, m at next level, right associativity).
Notation "m ;; k" := (bind m (fun _ => k))
  (at level 61, right associativity).

(** [if title: ax.set_title(title)]: [None] and the empty string are
    false. *)
Definition set_title_if (ax : axes) (title : option string) : M unit :=
  match title with
  | Some t => if String.eqb t "" then ret tt
              else emit (set_title (ax_handle ax) t)
  | None => ret tt
  end.

(** Lines 94-99. *)
Definition show_plane (g : globals) (ax : axes) (p : image2d) (cmap : string)
           (title : option string) : M unit :=
  emit (imshow (ax_handle ax) (Array2D p) cmap) ;;
  emit (set_axis_off (ax_handle ax)) ;;
  set_title_if ax title.

(** Lines 115-119; the defaults are [cmap='gray'] and [step=2]. *)
Definition display (g : globals) (im3d : image3d) (cmap : string) (step : Z)
  : M unit :=
  match slice_step im3d step with
  | None => raise (ValueError "slice step cannot be zero")
  | Some planes =>
      emit (plt_subplots (16, 14)) ;;
      emit (imshow (Created 0) (Montage planes 4 NaN) cmap) ;;
      emit (set_axis_off (Created 0))
  end.

(** Lines 233-239. *)
Definition plot_hist (g : globals) (ax : axes) (d : image3d)
           (title : option string) : M unit :=
  emit (hist (ax_handle ax) (ravel d) 256) ;;
  emit (ticklabel_format (ax_handle ax) "y" "scientific" (0, 0)) ;;
  set_title_if ax title.

(** [rows * t] for a two-dimensional integer array and a tuple: each row
    is multiplied elementwise by [t]; a row of another length than [t]
    raises [ValueError]. *)
Fixpoint zip_mul (r t : list Z) : list Z :=
  match r, t with
  | x :: r', y :: t' => x * y :: zip_mul r' t'
  | _, _ => []
  end.

Fixpoint zip_add (r t : list Z) : list Z :=
  match r, t with
  | x :: r', y :: t' => x + y :: zip_add r' t'
  | _, _ => []
  end.

Definition mul_rows (rows : list (list Z)) (t : list Z)
  : option (list (list Z)) :=
  if forallb (fun r => Nat.eqb (length r) (length t)) rows
  then Some (map (fun r => zip_mul r t) rows)
  else None.

Definition column (k : nat) (rows : list (list Z)) : list Z :=
  map (fun r => nth k r 0) rows.

Definition row (k : nat) (rows : list (list Z)) : list Z := nth k rows [].

(** Lines 139-150. *)
Definition cube_corners : list (list Z) :=
  [[0; 0; 0]; [1; 0; 0]; [1; 1; 0]; [0; 1; 0];
   [0; 0; 1]; [1; 0; 1]; [1; 1; 1]; [0; 1; 1]].

(** Lines 160-168. *)
Definition cube_sides (Zs : list (list Z)) : list (list (list Z)) :=
  [[row 0 Zs; row 1 Zs; row 2 Zs; row 3 Zs];
   [row 4 Zs; row 5 Zs; row 6 Zs; row 7 Zs];
   [row 0 Zs; row 1 Zs; row 5 Zs; row 4 Zs];
   [row 2 Zs; row 3 Zs; row 7 Zs; row 6 Zs];
   [row 1 Zs; row 2 Zs; row 6 Zs; row 5 Zs];
   [row 4 Zs; row 7 Zs; row 3 Zs; row 0 Zs];
   [row 2 Zs; row 3 Zs; row 7 Zs; row 6 Zs]].

(** Lines 177-179: the square that marks plane [i], scaled by the
    literal [(60, 256, 256)] and moved by [[i, 0, 0]]. *)
Definition plane_marker (i : Z) : list (list (list Z)) :=
  [map (fun v => zip_add (zip_mul v [60; 256; 256]) [i; 0; 0])
       [[0; 0; 0]; [0; 0; 1]; [0; 1; 1]; [0; 1; 0]]].

Definition Qlist_min (l : list Q) : Q := fold_right Qmin (hd 0%Q l) l.
Definition Qlist_max (l : list Q) : Q := fold_right Qmax (hd 0%Q l) l.

(** Lines 137-192.  The cube is scaled by [data.shape], where [data] is
    the module-level array and not an argument. *)
Definition slice_in_3D (g : globals) (ax : axes) (i : Z) : M unit :=
  match mul_rows cube_corners (shape (g_data g)) with
  | None => raise (ValueError "operands could not be broadcast together")
  | Some Zs =>
      let h := ax_handle ax in
      emit (scatter3D h (column 0 Zs) (column 1 Zs) (column 2 Zs)) ;;
      emit (add_collection3d h (cube_sides Zs)
              (RGBA 0 1 1 0.25) 1 "darkblue") ;;
      emit (add_collection3d h (plane_marker i)
              (Named "magenta") 1 "black") ;;
      emit (set_xlabel h "plane") ;;
      emit (set_xlim h 0 100) ;;
      emit (set_ylabel h "row") ;;
      emit (set_zlabel h "col") ;;
      x <- ask_lim ax "x" ;;
      y <- ask_lim ax "y" ;;
      z <- ask_lim ax "z" ;;
      let scaling := [fst x; snd x; fst y; snd y; fst z; snd z] in
      let bounds := [Qlist_min scaling; Qlist_max scaling] in
      emit (auto_scale_xyz h bounds bounds bounds)
  end.

(** What the axes created by [plt.subplots] and [fig.add_subplot] answer
    to [get_xlim()], [get_ylim()] and [get_zlim()]: a behaviour of the
    plotting library. *)
Variable created_lim : nat -> list call -> string -> Q * Q.

Definition created (k : nat) : axes :=
  {| ax_handle := Created k; ax_lim := created_lim k |}.

(** The default of [display_slice]'s parameter [plane] (line 201). *)
Definition default_plane : Z := 34.

(** Lines 201-209: the function [explore_slices] defines and hands to
    [interact]; [None] is a call that leaves [plane] to its default. *)
Definition display_slice (g : globals) (data : image3d) (cmap : string)
           (plane_arg : option Z) : M unit :=
  let plane := match plane_arg with Some p => p | None => default_plane end in
  emit (plt_subplots (20, 5)) ;;
  emit (fig_add_subplot 133 "3d") ;;
  match getitem data plane with
  | None =>
      raise (IndexError ("index " ++ str_int plane ++
                         " is out of bounds for axis 0 with size " ++
                         str_int (len data))%string)
  | Some p =>
      show_plane g (created 0) p cmap (Some ("Plane " ++ str_int plane)%string) ;;
      slice_in_3D g (created 1) plane ;;
      emit plt_show
  end.

(** The range of the slider: [interact(plane=(0, N - 1))], line 200. *)
Definition slider_range (data : image3d) : Z * Z := (0, len data - 1).

Definition in_slider_range (data : image3d) (p : Z) : Prop :=
  fst (slider_range data) <= p <= snd (slider_range data).

(** Lines 195-211; the default is [cmap="gray"]. *)
Definition explore_slices (g : globals) (data : image3d) (cmap : string)
  : M (option Z -> M unit) :=
  emit (interact (fst (slider_range data)) (snd (slider_range data))) ;;
  ret (display_slice g data cmap).

End Render.

Arguments ret {pixel A} a.
Arguments bind {pixel A B} m k.
Arguments emit {pixel} c.
Arguments raise {pixel A} e.
Arguments ask_lim {pixel} ax dim.
Arguments run {pixel A} m.
Arguments show_plane {pixel} g ax p cmap title.
Arguments display {pixel} g im3d cmap step.
Arguments plot_hist {pixel} g ax d title.
Arguments slice_in_3D {pixel} g ax i.
Arguments display_slice {pixel} created_lim g data cmap plane_arg.
Arguments explore_slices {pixel} created_lim g data cmap.
Arguments slider_range {pixel} data.
Arguments in_slider_range {pixel} data p.
Arguments shape {pixel} d.
Arguments g_data {pixel} g.
Arguments getitem {A} a i.
Arguments Array2D {pixel} p.
Arguments Montage {pixel} planes padding_width fill.
Arguments Ok {A} a.
Arguments Raise {A} e.
Arguments plt_subplots {pixel}.
Arguments fig_add_subplot {pixel}.
Arguments plt_show {pixel}.
Arguments interact {pixel}.
Arguments imshow {pixel}.
Arguments set_axis_off {pixel}.
Arguments set_title {pixel}.
Arguments hist {pixel}.
Arguments ticklabel_format {pixel}.
Arguments scatter3D {pixel}.
Arguments add_collection3d {pixel}.
Arguments set_xlabel {pixel}.
Arguments set_ylabel {pixel}.
Arguments set_zlabel {pixel}.
Arguments set_xlim {pixel}.
Arguments get_lim {pixel}.
Arguments auto_scale_xyz {pixel}.
Arguments created {pixel} created_lim k.

Example slice_step_every_other :
  slice_step [1; 2; 3; 4; 5] 2 = Some [1; 3; 5] /\
  slice_step [1; 2; 3; 4; 5] (-2) = Some [5; 3; 1] /\
  slice_step [1; 2; 3; 4; 5] 0 = None.
Proof. repeat split. Qed.

Example getitem_wraps_negative_indices :
  getitem [10; 20; 30] 0 = Some 10 /\ getitem [10; 20; 30] (-1) = Some 30 /\
  getitem [10; 20; 30] 3 = None /\ getitem [10; 20; 30] (-4) = None.
Proof. repeat split. Qed.

Example show_plane_with_title :
  run (show_plane {| g_data := [] |}
                  {| ax_handle := Given 0; ax_lim := fun _ _ => (0%Q, 1%Q) |}
                  [[tt]] "gray" (Some "Original"%string)) =
  ([imshow (Given 0) (Array2D [[tt]]) "gray"; set_axis_off (Given 0);
    set_title (Given 0) "Original"], Ok tt).
Proof. reflexivity. Qed.

Example display_every_other_plane :
  run (display {| g_data := [] |} [[[1]]; [[2]]; [[3]]] "gray" 2) =
  ([plt_subplots (16, 14);
    imshow (Created 0) (Montage [[[1]]; [[3]]] 4 NaN) "gray";
    set_axis_off (Created 0)], Ok tt).
Proof. reflexivity. Qed.

Example display_slice_default_on_two_planes :
  run (display_slice (fun _ _ _ => (0%Q, 1%Q)) {| g_data := [] |}
                     [[[tt]]; [[tt]]] "gray" None) =
  ([plt_subplots (20, 5); fig_add_subplot 133 "3d"],
   Raise (IndexError "index 34 is out of bounds for axis 0 with size 2")).
Proof. reflexivity. Qed.

(** A helper is a stateless pass-through when the calls it issues, and
    how it ends, are the same under any two module-level states. *)
Definition stateless {pixel Args A : Type}
           (f : globals pixel -> Args -> M pixel A) : Prop :=
  forall (g1 g2 : globals pixel) (args : Args),
    run (f g1 args) = run (f g2 args).

(** The same, for two module-level states whose [data] have one shape. *)
Definition reads_only_data_shape {pixel Args A : Type}
           (f : globals pixel -> Args -> M pixel A) : Prop :=
  forall (g1 g2 : globals pixel) (args : Args),
    shape (g_data g1) = shape (g_data g2) ->
    run (f g1 args) = run (f g2 args).

(** The helpers, with their arguments as one tuple. *)
Definition show_plane_fn {pixel : Type} (g : globals pixel)
           (args : axes pixel * image2d pixel * string * option string)
  : M pixel unit :=
  let '(ax, p, cmap, title) := args in show_plane g ax p cmap title.

Definition display_fn {pixel : Type} (g : globals pixel)
           (args : image3d pixel * string * Z) : M pixel unit :=
  let '(im3d, cmap, step) := args in display g im3d cmap step.

Definition plot_hist_fn {pixel : Type} (g : globals pixel)
           (args : axes pixel * image3d pixel * option string)
  : M pixel unit :=
  let '(ax, d, title) := args in plot_hist g ax d title.

Definition slice_in_3D_fn {pixel : Type} (g : globals pixel)
           (args : axes pixel * Z) : M pixel unit :=
  let '(ax, i) := args in slice_in_3D g ax i.

(** [explore_slices]: the call itself, then a call of the function it
    returns. *)
Definition explore_slices_fn {pixel : Type}
           (created_lim : nat -> list (call pixel) -> string -> Q * Q)
           (g : globals pixel)
           (args : image3d pixel * string * option Z) : M pixel unit :=
  let '(data, cmap, plane_arg) := args in
  bind (explore_slices created_lim g data cmap)
       (fun display_slice => display_slice plane_arg).

Definition all_helpers_stateless (pixel : Type) : Prop :=
  stateless (@show_plane_fn pixel) /\
  stateless (@display_fn pixel) /\
  stateless (@plot_hist_fn pixel) /\
  stateless (@slice_in_3D_fn pixel) /\
  (forall created_lim, stateless (@explore_slices_fn pixel created_lim)).

Lemma slice_in_3D_shape {pixel : Type} (g1 g2 : globals pixel)
      (ax : axes pixel) (i : Z) :
  shape (g_data g1) = shape (g_data g2) ->
  slice_in_3D g1 ax i = slice_in_3D g2 ax i.
Proof.
  intros Hshape. unfold slice_in_3D. rewrite Hshape. reflexivity.
Qed.

Lemma display_slice_shape {pixel : Type} created_lim (g1 g2 : globals pixel)
      (data : image3d pixel) (cmap : string) (plane_arg : option Z) :
  shape (g_data g1) = shape (g_data g2) ->
  display_slice created_lim g1 data cmap plane_arg =
  display_slice created_lim g2 data cmap plane_arg.
Proof.
  intros Hshape. unfold display_slice.
  destruct (getitem data _) as [p|]; [|reflexivity].
  rewrite (slice_in_3D_shape g1 g2 _ _ Hshape). reflexivity.
Qed.

(** *** Plane indices in [explore_slices] *)

Lemma getitem_in_bounds {A : Type} (a : list A) (i : Z) :
  0 <= i < len a -> exists x, getitem a i = Some x.
Proof.
  intros [Hlo Hhi]. unfold getitem.
  apply Z.leb_le in Hlo as Hlo'. apply Z.ltb_lt in Hhi as Hhi'.
  rewrite Hlo', Hhi'. simpl.
  destruct (nth_error a (Z.to_nat i)) as [x|] eqn:Hnth; [eauto|].
  apply nth_error_None in Hnth. unfold len in Hhi. lia.
Qed.

Lemma getitem_past_the_end {A : Type} (a : list A) (i : Z) :
  0 <= i -> len a <= i -> getitem a i = None.
Proof.
  intros Hlo Hhi. unfold getitem.
  assert (H1 : (i <? len a) = false) by (apply Z.ltb_ge; exact Hhi).
  assert (H2 : (i <? 0) = false) by (apply Z.ltb_ge; exact Hlo).
  rewrite H1, H2, !andb_false_r. reflexivity.
Qed.

(** A computation that returns, whatever was issued before it. *)
Definition returns {pixel A : Type} (m : M pixel A) : Prop :=
  forall h, exists h' a, m h = (h', Ok a).

Lemma returns_ret {pixel A : Type} (a : A) : returns (@ret pixel A a).
Proof. intros h. exists h, a. reflexivity. Qed.

Lemma returns_emit {pixel : Type} (c : call pixel) : returns (emit c).
Proof. intros h. exists (h ++ [c]), tt. reflexivity. Qed.

Lemma returns_ask_lim {pixel : Type} (ax : axes pixel) (dim : string) :
  returns (ask_lim ax dim).
Proof. intros h. eexists _, _. reflexivity. Qed.

Lemma returns_bind {pixel A B : Type} (m : M pixel A) (k : A -> M pixel B) :
  returns m -> (forall a, returns (k a)) -> returns (bind m k).
Proof.
  intros Hm Hk h. destruct (Hm h) as (h' & a & Ha).
  destruct (Hk a h') as (h'' & b & Hb).
  exists h'', b. unfold bind. rewrite Ha. exact Hb.
Qed.

Create HintDb returns.
#[local] Hint Resolve returns_ret returns_emit returns_ask_lim : returns.

Ltac returns_steps :=
  repeat first [ solve [auto with returns]
               | apply returns_bind; [|intros ?] ].

Lemma show_plane_returns {pixel : Type} (g : globals pixel) ax p cmap title :
  returns (show_plane g ax p cmap title).
Proof.
  unfold show_plane. returns_steps.
  unfold set_title_if. destruct title as [t|]; [|auto with returns].
  destruct (String.eqb t ""); auto with returns.
Qed.
#[local] Hint Resolve show_plane_returns : returns.

Lemma slice_in_3D_returns {pixel : Type} (g : globals pixel) ax i :
  returns (slice_in_3D g ax i).
Proof.
  unfold slice_in_3D, shape, mul_rows. cbn [forallb cube_corners length Nat.eqb andb].
  returns_steps.
Qed.
#[local] Hint Resolve slice_in_3D_returns : returns.

Lemma display_slice_returns {pixel : Type} created_lim (g : globals pixel)
      data cmap plane_arg pl :
  getitem data (match plane_arg with Some p => p | None => default_plane end)
    = Some pl ->
  returns (display_slice created_lim g data cmap plane_arg).
Proof.
  intros Hget. unfold display_slice. rewrite Hget.
  returns_steps.
Qed.

Lemma display_slice_raises {pixel : Type} created_lim (g : globals pixel)
      data cmap plane_arg :
  let plane := match plane_arg with Some p => p | None => default_plane end in
  getitem data plane = None ->
  run (display_slice created_lim g data cmap plane_arg) =
  ([plt_subplots (20, 5); fig_add_subplot 133 "3d"],
   Raise (IndexError ("index " ++ str_int plane ++
                      " is out of bounds for axis 0 with size " ++
                      str_int (len data))%string)).
Proof.
  intros plane Hget. unfold display_slice. fold plane. rewrite Hget.
  reflexivity.
Qed.

(** An axes object that answers [(0, 1)] to every query. *)
Definition unit_axes : axes unit :=
  {| ax_handle := Given 0; ax_lim := fun _ _ => (0%Q, 1%Q) |}.

Example slice_in_3D_one_voxel :
  fst (run (slice_in_3D {| g_data := [[[tt]]] |} unit_axes 0)) =
  scatter3D (Given 0) [0; 1; 1; 0; 0; 1; 1; 0] [0; 0; 1; 1; 0; 0; 1; 1]
            [0; 0; 0; 0; 1; 1; 1; 1]
  :: tl (fst (run (slice_in_3D {| g_data := [[[tt]]] |} unit_axes 0))).
Proof. reflexivity. Qed.

Example slice_in_3D_two_planes :
  fst (run (slice_in_3D {| g_data := [[[tt]]; [[tt]]] |} unit_axes 0)) =
  scatter3D (Given 0) [0; 2; 2; 0; 0; 2; 2; 0] [0; 0; 1; 1; 0; 0; 1; 1]
            [0; 0; 0; 0; 1; 1; 1; 1]
  :: tl (fst (run (slice_in_3D {| g_data := [[[tt]]; [[tt]]] |} unit_axes 0))).
Proof. reflexivity. Qed.

(** C8, as stated, fails: [slice_in_3D] scales the cube it draws by the
    shape of the module-level [data], so two runs with the same arguments
    and module-level arrays of different shapes issue different calls. *)
Lemma slice_in_3D_reads_module_data : ~ all_helpers_stateless unit.
Proof.
  intros (_ & _ & _ & Hslice & _).
  specialize (Hslice {| g_data := [[[tt]]] |}
                     {| g_data := [[[tt]]; [[tt]]] |} (unit_axes, 0)).
  apply (f_equal fst) in Hslice. vm_compute in Hslice. discriminate Hslice.
Qed.

(** C8, amended: [show_plane], [display] and [plot_hist] are stateless
    pass-throughs: the calls they issue depend only on their arguments.
    [slice_in_3D], and through it the function [explore_slices] returns,
    depend on their arguments and on the shape of the module-level array
    [data], and on nothing else of the module-level state. *)
Theorem helpers_read_at_most_the_shape_of_data (pixel : Type) :
  stateless (@show_plane_fn pixel) /\
  stateless (@display_fn pixel) /\
  stateless (@plot_hist_fn pixel) /\
  reads_only_data_shape (@slice_in_3D_fn pixel) /\
  (forall created_lim,
      reads_only_data_shape (@explore_slices_fn pixel created_lim)).
Proof.
  split; [|split; [|split; [|split]]].
  - intros g1 g2 [[[ax p] cmap] title]. reflexivity.
  - intros g1 g2 [[im3d cmap] step]. reflexivity.
  - intros g1 g2 [[ax d] title]. reflexivity.
  - intros g1 g2 [ax i] Hshape. unfold slice_in_3D_fn.
    rewrite (slice_in_3D_shape g1 g2 ax i Hshape). reflexivity.
  - intros created_lim g1 g2 [[data cmap] plane_arg] Hshape.
    unfold explore_slices_fn, explore_slices, run, bind, emit, ret.
    cbv beta iota.
    rewrite (display_slice_shape created_lim g1 g2 data cmap plane_arg Hshape).
    reflexivity.
Qed.

(** *** Further properties of the helpers *)

Arguments ax_handle {pixel} a.
Arguments ax_lim {pixel} a.
Arguments set_title_if {pixel} ax title.

(** The axes object a call is made on; [None] for the calls on the
    [pyplot] module, on a figure and on [interact]. *)
Definition target {pixel : Type} (c : call pixel) : option handle :=
  match c with
  | plt_subplots _ | fig_add_subplot _ _ | plt_show | interact _ _ => None
  | imshow ax _ _ | set_axis_off ax | set_title ax _ | hist ax _ _
  | ticklabel_format ax _ _ _ | scatter3D ax _ _ _
  | add_collection3d ax _ _ _ _ | set_xlabel ax _ | set_ylabel ax _
  | set_zlabel ax _ | set_xlim ax _ _ | get_lim ax _
  | auto_scale_xyz ax _ _ _ => Some ax
  end.

(** A computation that keeps the calls issued before it and adds calls
    that all satisfy [P]. *)
Definition issues_only {pixel A : Type} (P : call pixel -> Prop)
           (m : M pixel A) : Prop :=
  forall h, exists new, fst (m h) = h ++ new /\ Forall P new.

Lemma issues_only_ret {pixel A : Type} (P : call pixel -> Prop) (a : A) :
  issues_only P (ret a).
Proof. intros h. exists []. rewrite app_nil_r. split; [reflexivity|constructor]. Qed.

Lemma issues_only_raise {pixel A : Type} (P : call pixel -> Prop) (e : exn) :
  issues_only P (@raise pixel A e).
Proof. intros h. exists []. rewrite app_nil_r. split; [reflexivity|constructor]. Qed.

Lemma issues_only_emit {pixel : Type} (P : call pixel -> Prop) (c : call pixel) :
  P c -> issues_only P (emit c).
Proof. intros Hc h. exists [c]. split; [reflexivity|repeat constructor; exact Hc]. Qed.

Lemma issues_only_ask_lim {pixel : Type} (P : call pixel -> Prop)
      (ax : axes pixel) (dim : string) :
  P (get_lim (ax_handle ax) dim) -> issues_only P (ask_lim ax dim).
Proof. intros Hc h. exists [get_lim (ax_handle ax) dim]. split; [reflexivity|repeat constructor; exact Hc]. Qed.

Lemma issues_only_bind {pixel A B : Type} (P : call pixel -> Prop)
      (m : M pixel A) (k : A -> M pixel B) :
  issues_only P m -> (forall a, issues_only P (k a)) ->
  issues_only P (bind m k).
Proof.
  intros Hm Hk h. destruct (Hm h) as (n1 & H1 & HP1). unfold bind.
  destruct (m h) as [h' [a|e]]; simpl in H1; subst h'.
  - destruct (Hk a (h ++ n1)) as (n2 & H2 & HP2).
    exists (n1 ++ n2). rewrite H2, app_assoc. split; [reflexivity|].
    apply Forall_app. split; assumption.
  - exists n1. split; [reflexivity|exact HP1].
Qed.

Ltac issues_steps :=
  repeat first [ apply issues_only_ret
               | apply issues_only_raise
               | apply issues_only_emit; try reflexivity
               | apply issues_only_ask_lim; try reflexivity
               | apply issues_only_bind; [|intros ?] ].

Lemma set_title_if_issues {pixel : Type} (ax : axes pixel) title :
  issues_only (fun c => target c = Some (ax_handle ax) /\
                        c <> set_title (ax_handle ax) "")
              (set_title_if ax title).
Proof.
  unfold set_title_if. destruct title as [t|]; [|apply issues_only_ret].
  destruct (String.eqb t "") eqn:Ht; [apply issues_only_ret|].
  apply issues_only_emit. split; [reflexivity|].
  intros Heq. injection Heq as ->. rewrite String.eqb_refl in Ht.
  discriminate Ht.
Qed.

Lemma issues_only_weaken {pixel A : Type} (P Q : call pixel -> Prop)
      (m : M pixel A) :
  (forall c, P c -> Q c) -> issues_only P m -> issues_only Q m.
Proof.
  intros HPQ Hm h. destruct (Hm h) as (new & Hnew & HP).
  exists new. split; [exact Hnew|]. eapply Forall_impl; eassumption.
Qed.

(** X9: [show_plane], [plot_hist] and [slice_in_3D] keep the calls made before
    them and make calls on the axes they are given only: they never create
    a figure, never show one, and never touch another axes. *)
Theorem helpers_draw_only_on_their_axes (pixel : Type)
        (g : globals pixel) (ax : axes pixel) :
  (forall p cmap title,
      issues_only (fun c => target c = Some (ax_handle ax))
                  (show_plane g ax p cmap title)) /\
  (forall d title,
      issues_only (fun c => target c = Some (ax_handle ax))
                  (plot_hist g ax d title)) /\
  (forall i,
      issues_only (fun c => target c = Some (ax_handle ax))
                  (slice_in_3D g ax i)).
Proof.
  assert (Htitle : forall title,
             issues_only (fun c => target c = Some (ax_handle ax))
                         (set_title_if ax title)).
  { intros title. eapply issues_only_weaken; [|apply set_title_if_issues].
    intros c [Hc _]. exact Hc. }
  split; [|split].
  - intros p cmap title. unfold show_plane. issues_steps. apply Htitle.
  - intros d title. unfold plot_hist. issues_steps. apply Htitle.
  - intros i. unfold slice_in_3D.
    destruct (mul_rows _ _); issues_steps.
Qed.

(** X10: [show_plane] and [plot_hist] never set an empty title: a title that
    is [None] or the empty string is not passed on. *)
Theorem helpers_never_set_an_empty_title (pixel : Type)
        (g : globals pixel) (ax : axes pixel) (title : option string) :
  (forall p cmap,
      issues_only (fun c => c <> set_title (ax_handle ax) "")
                  (show_plane g ax p cmap title)) /\
  (forall d,
      issues_only (fun c => c <> set_title (ax_handle ax) "")
                  (plot_hist g ax d title)).
Proof.
  assert (Htitle :
             issues_only (fun c => c <> set_title (ax_handle ax) "")
                         (set_title_if ax title)).
  { eapply issues_only_weaken; [|apply set_title_if_issues].
    intros c [_ Hc]. exact Hc. }
  split.
  - intros p cmap. unfold show_plane. issues_steps; try discriminate.
    apply Htitle.
  - intros d. unfold plot_hist. issues_steps; try discriminate.
    apply Htitle.
Qed.

Lemma every_from_nth {A : Type} (step : nat) (a : list A) :
  (1 <= step)%nat ->
  forall skip k,
    nth_error (every_from skip step a) k = nth_error a (skip + k * step).
Proof.
  intros Hstep. induction a as [|x a IH]; intros skip k; cbn [every_from].
  - destruct k; destruct (skip + _)%nat; reflexivity.
  - destruct skip as [|j].
    + destruct k as [|k]; [reflexivity|]. cbn [nth_error]. rewrite IH.
      replace (0 + S k * step)%nat with (S (step - 1 + k * step)) by lia.
      reflexivity.
    + rewrite IH. reflexivity.
Qed.

Lemma every_from_length {A : Type} (step : nat) (a : list A) :
  (1 <= step)%nat ->
  forall skip,
    length (every_from skip step a) = ((length a - skip + step - 1) / step)%nat.
Proof.
  intros Hstep. induction a as [|x a IH]; intros skip; cbn [every_from length].
  - rewrite Nat.div_small by lia. reflexivity.
  - destruct skip as [|j].
    + cbn [length]. rewrite IH.
      replace (S (length a) - 0 + step - 1)%nat with (length a + 1 * step)%nat
        by lia.
      rewrite Nat.div_add by lia.
      destruct (Nat.le_gt_cases (step - 1) (length a)) as [Hle|Hgt].
      * replace (length a - (step - 1) + step - 1)%nat with (length a) by lia.
        lia.
      * replace (length a - (step - 1) + step - 1)%nat with (step - 1)%nat
          by lia.
        rewrite (Nat.div_small (step - 1)), (Nat.div_small (length a)) by lia.
        reflexivity.
    + rewrite IH. reflexivity.
Qed.

(** X11: [display] with a positive step shows, in one montage on a new figure,
    the planes of index 0, [step], [2 * step], ...: the [k]-th plane of
    the montage is plane [k * step] of the image, and there are
    [ceil(N / step)] of them ([ceil(N / 2)] with the default step). *)
Theorem display_shows_every_step_th_plane (pixel : Type)
        (g : globals pixel) (im3d : image3d pixel) (cmap : string) (step : Z)
        (Hstep : 0 < step) :
  exists planes,
    run (display g im3d cmap step) =
      ([plt_subplots (16, 14);
        imshow (Created 0) (Montage planes 4 NaN) cmap;
        set_axis_off (Created 0)], Ok tt) /\
    (forall k, nth_error planes k = nth_error im3d (k * Z.to_nat step)) /\
    len planes = (len im3d + step - 1) / step.
Proof.
  destruct step as [|s|s]; try lia.
  exists (every_from 0 (Pos.to_nat s) im3d). split; [reflexivity|].
  assert (Hs : (1 <= Pos.to_nat s)%nat) by lia.
  split.
  - intros k. rewrite (every_from_nth _ _ Hs 0 k). reflexivity.
  - unfold len. rewrite (every_from_length _ _ Hs 0).
    rewrite Nat.sub_0_r, Nat2Z.inj_div.
    f_equal; lia.
Qed.

Lemma display_shows_every_step_th_plane_witness :
  exists planes,
    run (display {| g_data := [] |} [[[1]]; [[2]]; [[3]]; [[4]]; [[5]]]
                 "gray" 2) =
      ([plt_subplots (16, 14);
        imshow (Created 0) (Montage planes 4 NaN) "gray";
        set_axis_off (Created 0)], Ok tt) /\
    planes = [[[1]]; [[3]]; [[5]]].
Proof.
  destruct (display_shows_every_step_th_plane Z {| g_data := [] |}
              [[[1]]; [[2]]; [[3]]; [[4]]; [[5]]] "gray" 2 eq_refl)
    as (planes & Hrun & _).
  exists planes. split; [exact Hrun|].
  injection Hrun as <-. reflexivity.
Defined.

(** X12: [display] with a zero step raises [ValueError] before any call is
    made; with a negative step it makes its three calls and the montage
    holds the planes counted from the last one backwards: its [k]-th
    plane is plane [k * |step|] of the reversed image, and there are
    [ceil(N / |step|)] of them. *)
Theorem display_step_edge_cases (pixel : Type)
        (g : globals pixel) (im3d : image3d pixel) (cmap : string) :
  run (display g im3d cmap 0) =
    ([], Raise (ValueError "slice step cannot be zero")) /\
  (forall step, step < 0 ->
     exists planes,
       run (display g im3d cmap step) =
         ([plt_subplots (16, 14);
           imshow (Created 0) (Montage planes 4 NaN) cmap;
           set_axis_off (Created 0)], Ok tt) /\
       (forall k, nth_error planes k =
                  nth_error (rev im3d) (k * Z.to_nat (- step))) /\
       len planes = (len im3d + - step - 1) / - step).
Proof.
  split; [reflexivity|].
  intros [|s|s] Hneg; try lia.
  exists (every_from 0 (Pos.to_nat s) (rev im3d)).
  split; [reflexivity|].
  assert (Hs : (1 <= Pos.to_nat s)%nat) by lia.
  split.
  - intros k. rewrite (every_from_nth _ _ Hs 0 k). reflexivity.
  - unfold len. rewrite (every_from_length _ _ Hs 0).
    rewrite Nat.sub_0_r, Nat2Z.inj_div, length_rev.
    f_equal; lia.
Qed.

(** The corners of the box [slice_in_3D] draws: the unit cube scaled by
    the shape of the module-level array. *)
Definition box_corners {pixel : Type} (g : globals pixel) : list (list Z) :=
  map (fun r => zip_mul r (shape (g_data g))) cube_corners.

Lemma mul_rows_cube_corners {pixel : Type} (g : globals pixel) :
  mul_rows cube_corners (shape (g_data g)) = Some (box_corners g).
Proof. reflexivity. Qed.

Lemma plane_marker_value (i : Z) :
  plane_marker i = [[[i; 0; 0]; [i; 0; 256]; [i; 256; 256]; [i; 256; 0]]].
Proof. reflexivity. Qed.

(** X13: The square that marks the plane is drawn with the literal extent
    [256 x 256] (line 178), the cube with the shape of the module-level
    array (line 152): the corners of the square lie on edges of the cube
    (they agree with corners of the cube in the row and column
    coordinates) exactly when that array has 256 rows and 256 columns. *)
Theorem plane_marker_fits_the_cube_iff (pixel : Type) (g : globals pixel)
        (i : Z) :
  (forall v, In v (concat (plane_marker i)) ->
             exists u, In u (box_corners g) /\ tl u = tl v) <->
  nth 1 (shape (g_data g)) 0 = 256 /\ nth 2 (shape (g_data g)) 0 = 256.
Proof.
  unfold box_corners, shape. cbn [nth cube_corners map zip_mul].
  set (n_plane := len (g_data g)).
  set (n_row := len (hd [] (g_data g))).
  set (n_col := len (hd [] (hd [] (g_data g)))).
  clearbody n_plane n_row n_col.
  rewrite plane_marker_value. cbn [concat app In]. split.
  - intros H. destruct (H [i; 256; 256]) as (u & Hu & Htl).
    { tauto. }
    repeat (destruct Hu as [<-|Hu];
            [cbn [tl] in Htl;
             pose proof (f_equal (fun l => nth 0 l 0) Htl) as H1;
             pose proof (f_equal (fun l => nth 1 l 0) Htl) as H2;
             cbn [nth] in H1, H2; lia|]).
    destruct Hu.
  - intros [Hrow Hcol] v Hv.
    destruct Hv as [<-|[<-|[<-|[<-|[]]]]]; cbn [tl].
    + exists [0 * n_plane; 0 * n_row; 0 * n_col]. split; [tauto|].
      cbn [tl]. repeat f_equal; lia.
    + exists [0 * n_plane; 0 * n_row; 1 * n_col]. split; [tauto|].
      cbn [tl]. repeat f_equal; lia.
    + exists [0 * n_plane; 1 * n_row; 1 * n_col]. split; [tauto|].
      cbn [tl]. repeat f_equal; lia.
    + exists [0 * n_plane; 1 * n_row; 0 * n_col]. split; [tauto|].
      cbn [tl]. repeat f_equal; lia.
Qed.

Lemma Qlist_min_le (l : list Q) (x : Q) : In x l -> (Qlist_min l <= x)%Q.
Proof.
  unfold Qlist_min. generalize (hd 0%Q l) as d.
  induction l as [|y l IH]; intros d Hx; [destruct Hx|].
  cbn [fold_right]. destruct Hx as [<-|Hx].
  - apply Q.le_min_l.
  - eapply Qle_trans; [apply Q.le_min_r|]. apply IH. exact Hx.
Qed.

Lemma Qlist_max_ge (l : list Q) (x : Q) : In x l -> (x <= Qlist_max l)%Q.
Proof.
  unfold Qlist_max. generalize (hd 0%Q l) as d.
  induction l as [|y l IH]; intros d Hx; [destruct Hx|].
  cbn [fold_right]. destruct Hx as [<-|Hx].
  - apply Q.le_max_l.
  - eapply Qle_trans; [|apply Q.le_max_r]. apply IH. exact Hx.
Qed.

(** X14: [slice_in_3D] always returns, after eleven calls on its axes: the
    corners, the cube, the marker, three labels and the x-limits, then the
    three limits are read back and all three axes are given one common
    interval, which holds every limit that was read. *)
Theorem slice_in_3D_autoscales_to_a_common_interval (pixel : Type)
        (g : globals pixel) (ax : axes pixel) (i : Z) :
  exists drawn x y z lo hi,
    run (slice_in_3D g ax i) =
      (drawn ++ [get_lim (ax_handle ax) "x"; get_lim (ax_handle ax) "y";
                 get_lim (ax_handle ax) "z";
                 auto_scale_xyz (ax_handle ax) [lo; hi] [lo; hi] [lo; hi]],
       Ok tt) /\
    length drawn = 7%nat /\
    x = ax_lim ax drawn "x" /\
    y = ax_lim ax (drawn ++ [get_lim (ax_handle ax) "x"]) "y" /\
    z = ax_lim ax (drawn ++ [get_lim (ax_handle ax) "x";
                             get_lim (ax_handle ax) "y"]) "z" /\
    Forall (fun v => (lo <= v)%Q /\ (v <= hi)%Q)
           [fst x; snd x; fst y; snd y; fst z; snd z].
Proof.
  unfold slice_in_3D. rewrite mul_rows_cube_corners.
  unfold run, bind, emit, ask_lim. cbn [app fst snd].
  exists [scatter3D (ax_handle ax) (column 0 (box_corners g))
            (column 1 (box_corners g)) (column 2 (box_corners g));
          add_collection3d (ax_handle ax) (cube_sides (box_corners g))
            (RGBA 0 1 1 0.25) 1 "darkblue";
          add_collection3d (ax_handle ax) (plane_marker i)
            (Named "magenta") 1 "black";
          set_xlabel (ax_handle ax) "plane"; set_xlim (ax_handle ax) 0 100;
          set_ylabel (ax_handle ax) "row"; set_zlabel (ax_handle ax) "col"].
  do 5 eexists. split; [reflexivity|]. split; [reflexivity|].
  split; [reflexivity|]. split; [reflexivity|]. split; [reflexivity|].
  apply Forall_forall. intros v Hv. split.
  - apply Qlist_min_le. exact Hv.
  - apply Qlist_max_ge. exact Hv.
Qed.

Lemma getitem_negative {A : Type} (a : list A) (i : Z) :
  - len a <= i < 0 ->
  exists x, getitem a i = Some x /\
            nth_error a (Z.to_nat (len a + i)) = Some x.
Proof.
  intros [Hlo Hhi]. unfold getitem.
  assert (H1 : (0 <=? i) = false) by (apply Z.leb_gt; exact Hhi).
  assert (H2 : (- len a <=? i) = true) by (apply Z.leb_le; exact Hlo).
  assert (H3 : (i <? 0) = true) by (apply Z.ltb_lt; exact Hhi).
  rewrite H1, H2, H3. cbn [andb]. rewrite (Z.add_comm i).
  destruct (nth_error a (Z.to_nat (len a + i))) as [x|] eqn:Hnth; [eauto|].
  apply nth_error_None in Hnth. unfold len in *. lia.
Qed.

Lemma getitem_before_the_start {A : Type} (a : list A) (i : Z) :
  i < - len a -> getitem a i = None.
Proof.
  intros Hlo. unfold getitem.
  assert (Hlen : 0 <= len a) by (unfold len; lia).
  assert (H1 : (0 <=? i) = false) by (apply Z.leb_gt; lia).
  assert (H2 : (- len a <=? i) = false) by (apply Z.leb_gt; exact Hlo).
  rewrite H1, H2. reflexivity.
Qed.

Lemma slice_in_3D_appends {pixel : Type} (g : globals pixel)
      (ax : axes pixel) (i : Z) (h : list (call pixel)) :
  exists new,
    slice_in_3D g ax i h = (h ++ new, Ok tt) /\
    In (add_collection3d (ax_handle ax) (plane_marker i)
                         (Named "magenta") 1 "black") new.
Proof.
  unfold slice_in_3D. rewrite mul_rows_cube_corners.
  unfold bind, emit, ask_lim. cbn [fst snd]. rewrite <- !app_assoc.
  eexists. split; [reflexivity|]. simpl. tauto.
Qed.

(** X15: [display_slice] accepts the planes [data[plane]] accepts: a plane of
    [-N .. -1] counts from the last plane, and the title and the marker
    keep the negative number; any other plane outside [0 .. N - 1] raises
    [IndexError] once the figure and its 3D axes exist and before
    anything is drawn. *)
Theorem display_slice_plane_index (pixel : Type) created_lim
        (g : globals pixel) (data : image3d pixel) (cmap : string) (p : Z) :
  (p < - len data \/ len data <= p ->
     run (display_slice created_lim g data cmap (Some p)) =
       ([plt_subplots (20, 5); fig_add_subplot 133 "3d"],
        Raise (IndexError ("index " ++ str_int p ++
                           " is out of bounds for axis 0 with size " ++
                           str_int (len data))%string))) /\
  (- len data <= p < 0 ->
     exists pl rest,
       nth_error data (Z.to_nat (len data + p)) = Some pl /\
       run (display_slice created_lim g data cmap (Some p)) =
         ([plt_subplots (20, 5); fig_add_subplot 133 "3d";
           imshow (Created 0) (Array2D pl) cmap;
           set_axis_off (Created 0);
           set_title (Created 0) ("Plane " ++ str_int p)%string]
          ++ rest ++ [plt_show],
          Ok tt) /\
       In (add_collection3d (Created 1) (plane_marker p)
                            (Named "magenta") 1 "black") rest).
Proof.
  split.
  - intros Hout.
    apply (display_slice_raises created_lim g data cmap (Some p)).
    destruct Hout as [Hlo|Hhi].
    + apply getitem_before_the_start. exact Hlo.
    + apply getitem_past_the_end; [unfold len in *; lia|exact Hhi].
  - intros Hneg. destruct (getitem_negative data p Hneg) as (pl & Hget & Hnth).
    unfold display_slice, run. rewrite Hget.
    unfold bind at 1 2. unfold emit at 1 2. cbn [app].
    unfold show_plane, set_title_if.
    replace (String.eqb ("Plane " ++ str_int p) "") with false by reflexivity.
    unfold bind at 1 2 3 4. unfold emit at 1 2 3. cbn [app].
    destruct (slice_in_3D_appends g (created created_lim 1) p
                [plt_subplots (20, 5); fig_add_subplot 133 "3d";
                 imshow (Created 0) (Array2D pl) cmap;
                 set_axis_off (Created 0);
                 set_title (Created 0) ("Plane " ++ str_int p)%string])
      as (new & Hnew & Hin).
    exists pl, new. split; [exact Hnth|]. split; [|exact Hin].
    unfold bind, emit. cbn [created ax_handle] in *. rewrite Hnew.
    rewrite <- app_assoc. reflexivity.
Qed.

(** *** The module-level figures (lines 102-107 and 250-256) *)

Local Notation "m ;; k" := (bind m (fun _ => k))
  (at level 61, right associativity).

Fixpoint all_some {A : Type} (l : list (option A)) : option (list A) :=
  match l with
  | [] => Some []
  | Some x :: l' =>
      match all_some l' with
      | Some xs => Some (x :: xs)
      | None => None
      end
  | None :: _ => None
  end.

(** An index a dimension of size [n] accepts. *)
Definition index_ok (n i : Z) : bool := (- n <=? i) && (i <? n).

(** [data[:, r, :]]: row [r] of every plane; [IndexError] when [r] is out
    of bounds for the second dimension. *)
Definition take_row {pixel : Type} (d : image3d pixel) (r : Z)
  : option (image2d pixel) :=
  if index_ok (nth 1 (shape d) 0) r
  then all_some (map (fun pl => getitem pl r) d)
  else None.

(** [data[:, :, c]]: column [c] of every plane; [IndexError] when [c] is
    out of bounds for the third dimension. *)
Definition take_col {pixel : Type} (d : image3d pixel) (c : Z)
  : option (image2d pixel) :=
  if index_ok (nth 2 (shape d) 0) c
  then all_some (map (fun pl => all_some (map (fun rw => getitem rw c) pl)) d)
  else None.

Definition out_of_bounds (i : Z) (axis : Z) (size : Z) : exn :=
  IndexError ("index " ++ str_int i ++ " is out of bounds for axis " ++
              str_int axis ++ " with size " ++ str_int size)%string.

(** Lines 102-107, on the axes [a], [b] and [c] of line 103: the middle
    plane, the middle row and the middle column of [data]. *)
Definition orthogonal_views {pixel : Type} (g : globals pixel)
           (a b c : axes pixel) (data : image3d pixel) : M pixel unit :=
  let n_plane := nth 0 (shape data) 0 in
  let n_row := nth 1 (shape data) 0 in
  let n_col := nth 2 (shape data) 0 in
  match getitem data (n_plane / 2) with
  | None => raise (out_of_bounds (n_plane / 2) 0 n_plane)
  | Some p1 =>
      show_plane g a p1 "gray"
                 (Some ("Plane = " ++ str_int (n_plane / 2))%string) ;;
      match take_row data (n_row / 2) with
      | None => raise (out_of_bounds (n_row / 2) 1 n_row)
      | Some p2 =>
          show_plane g b p2 "gray"
                     (Some ("Row = " ++ str_int (n_row / 2))%string) ;;
          match take_col data (n_col / 2) with
          | None => raise (out_of_bounds (n_col / 2) 2 n_col)
          | Some p3 =>
              show_plane g c p3 "gray"
                         (Some ("Column = " ++ str_int (n_col / 2))%string)
          end
      end
  end.

(** Lines 250-256, on the axes [a] to [f] of line 248: plane 32 of the
    original and of the two gamma-corrected images, and the histograms of
    the three images. *)
Definition exposure_figure {pixel : Type} (g : globals pixel)
           (a b c d e f : axes pixel)
           (data gamma_low gamma_high : image3d pixel) : M pixel unit :=
  match getitem data 32 with
  | None => raise (out_of_bounds 32 0 (len data))
  | Some p1 =>
      show_plane g a p1 "gray" (Some "Original"%string) ;;
      match getitem gamma_low 32 with
      | None => raise (out_of_bounds 32 0 (len gamma_low))
      | Some p2 =>
          show_plane g b p2 "gray" (Some "Gamma = 0.5"%string) ;;
          match getitem gamma_high 32 with
          | None => raise (out_of_bounds 32 0 (len gamma_high))
          | Some p3 =>
              show_plane g c p3 "gray" (Some "Gamma = 1.5"%string) ;;
              plot_hist g d data None ;;
              plot_hist g e gamma_low None ;;
              plot_hist g f gamma_high None
          end
      end
  end.

(** Every plane has [n_row] rows and every row has [n_col] pixels. *)
Definition rectangular {pixel : Type} (d : image3d pixel)
           (n_row n_col : nat) : Prop :=
  Forall (fun pl => length pl = n_row /\
                    Forall (fun rw : list pixel => length rw = n_col) pl) d.

Lemma getitem_nonnegative {A : Type} (a : list A) (i : Z) :
  0 <= i < len a -> getitem a i = nth_error a (Z.to_nat i).
Proof.
  intros [Hlo Hhi]. unfold getitem.
  apply Z.leb_le in Hlo. apply Z.ltb_lt in Hhi. rewrite Hlo, Hhi.
  reflexivity.
Qed.

Lemma all_some_getitem {A : Type} (rows : list (list A)) (n : nat) (i : Z) :
  Forall (fun rw => length rw = n) rows -> 0 <= i < Z.of_nat n ->
  exists picked,
    all_some (map (fun rw => getitem rw i) rows) = Some picked /\
    Forall2 (fun rw x => nth_error rw (Z.to_nat i) = Some x) rows picked.
Proof.
  intros Hrows Hi. induction Hrows as [|rw rows Hrw _ IH]; cbn [map all_some].
  - exists []. split; [reflexivity|constructor].
  - destruct IH as (picked & Hpicked & Hall).
    destruct (getitem_in_bounds rw i) as [x Hx]; [unfold len; lia|].
    rewrite Hx, Hpicked. exists (x :: picked). split; [reflexivity|].
    constructor; [|exact Hall].
    rewrite <- Hx. symmetry. apply getitem_nonnegative. unfold len. lia.
Qed.

Lemma Forall2_length_eq {A B : Type} (R : A -> B -> Prop) l1 l2 :
  Forall2 R l1 l2 -> length l2 = length l1.
Proof. intros H. induction H; simpl; congruence. Qed.

Lemma all_some_map {A B : Type} (f : A -> option B) (R : A -> B -> Prop)
      (l : list A) :
  Forall (fun x => exists y, f x = Some y /\ R x y) l ->
  exists ys, all_some (map f l) = Some ys /\ Forall2 R l ys.
Proof.
  intros H. induction H as [|x l (y & Hy & HR) _ IH]; cbn [map all_some].
  - exists []. split; [reflexivity|constructor].
  - destruct IH as (ys & Hys & Hall). rewrite Hy, Hys.
    exists (y :: ys). split; [reflexivity|]. constructor; assumption.
Qed.

Lemma rectangular_shape {pixel : Type} (data : image3d pixel)
      (n_row n_col : nat) :
  rectangular data n_row n_col -> data <> [] -> (0 < n_row)%nat ->
  shape data = [len data; Z.of_nat n_row; Z.of_nat n_col].
Proof.
  intros Hrect Hne Hrow. destruct data as [|pl data]; [congruence|].
  inversion Hrect as [|? ? [Hpl Hrows] _]; subst.
  destruct pl as [|rw pl]; [simpl in Hrow; lia|].
  inversion Hrows as [|? ? Hrw _]; subst.
  unfold shape, len. cbn [hd]. reflexivity.
Qed.

Lemma index_ok_middle (n : nat) :
  (0 < n)%nat -> index_ok (Z.of_nat n) (Z.of_nat n / 2) = true /\
                 0 <= Z.of_nat n / 2 < Z.of_nat n /\
                 Z.to_nat (Z.of_nat n / 2) = (n / 2)%nat.
Proof.
  intros Hn.
  assert (H : 0 <= Z.of_nat n / 2 < Z.of_nat n).
  { split; [apply Z.div_pos; lia|apply Z.div_lt_upper_bound; lia]. }
  split; [|split; [exact H|]].
  - unfold index_ok. apply andb_true_intro. split.
    + apply Z.leb_le. lia.
    + apply Z.ltb_lt. lia.
  - change 2 with (Z.of_nat 2). rewrite <- Nat2Z.inj_div.
    apply Nat2Z.id.
Qed.

(** X16: On an image with at least one plane, one row and one column, the
    three views of lines 105-107 are all in bounds: the middle plane, the
    middle row of every plane and the middle column of every plane are
    shown, in this order, each with its index in the title. *)
Theorem orthogonal_views_are_in_bounds (pixel : Type) (g : globals pixel)
        (a b c : axes pixel) (data : image3d pixel) (n_row n_col : nat)
        (Hrect : rectangular data n_row n_col)
        (Hplanes : data <> [])
        (Hrow : (0 < n_row)%nat) (Hcol : (0 < n_col)%nat) :
  exists p1 p2 p3,
    run (orthogonal_views g a b c data) =
      ([imshow (ax_handle a) (Array2D p1) "gray"; set_axis_off (ax_handle a);
        set_title (ax_handle a)
                  ("Plane = " ++ str_int (len data / 2))%string;
        imshow (ax_handle b) (Array2D p2) "gray"; set_axis_off (ax_handle b);
        set_title (ax_handle b)
                  ("Row = " ++ str_int (Z.of_nat n_row / 2))%string;
        imshow (ax_handle c) (Array2D p3) "gray"; set_axis_off (ax_handle c);
        set_title (ax_handle c)
                  ("Column = " ++ str_int (Z.of_nat n_col / 2))%string],
       Ok tt) /\
    nth_error data (length data / 2) = Some p1 /\
    Forall2 (fun pl rw => nth_error pl (n_row / 2) = Some rw) data p2 /\
    Forall2 (fun pl col =>
               Forall2 (fun rw x => nth_error rw (n_col / 2) = Some x) pl col)
            data p3.
Proof.
  assert (Hlen : (0 < length data)%nat).
  { destruct data; [congruence|simpl; lia]. }
  destruct (index_ok_middle (length data) Hlen) as (_ & Hmid & Hnat).
  destruct (index_ok_middle n_row Hrow) as (Hokr & Hmidr & Hnatr).
  destruct (index_ok_middle n_col Hcol) as (Hokc & Hmidc & Hnatc).
  fold (len data) in Hmid, Hnat.
  assert (H1 : exists p1, getitem data (len data / 2) = Some p1 /\
                          nth_error data (length data / 2) = Some p1).
  { destruct (getitem_in_bounds data _ Hmid) as [p1 Hp1]. exists p1.
    split; [exact Hp1|]. rewrite <- Hnat, <- Hp1. symmetry.
    apply getitem_nonnegative. exact Hmid. }
  destruct H1 as (p1 & Hget1 & Hnth1).
  assert (H2 : exists p2,
             all_some (map (fun pl => getitem pl (Z.of_nat n_row / 2)) data)
               = Some p2 /\
             Forall2 (fun pl rw => nth_error pl (n_row / 2) = Some rw)
                     data p2).
  { rewrite <- Hnatr. apply (all_some_getitem data n_row); [|exact Hmidr].
    eapply Forall_impl; [|exact Hrect]. intros pl [Hpl _]. exact Hpl. }
  destruct H2 as (p2 & Hget2 & Hall2).
  assert (H3 : exists p3,
             all_some (map (fun pl =>
                              all_some (map (fun rw =>
                                 getitem rw (Z.of_nat n_col / 2)) pl)) data)
               = Some p3 /\
             Forall2 (fun pl col =>
                        Forall2 (fun rw x =>
                                   nth_error rw (n_col / 2) = Some x) pl col)
                     data p3).
  { apply all_some_map. eapply Forall_impl; [|exact Hrect].
    intros pl [_ Hrows]. rewrite <- Hnatc.
    apply (all_some_getitem pl n_col); [exact Hrows|exact Hmidc]. }
  destruct H3 as (p3 & Hget3 & Hall3).
  exists p1, p2, p3. split; [|repeat split; assumption].
  unfold orthogonal_views, take_row, take_col.
  rewrite (rectangular_shape data n_row n_col Hrect Hplanes Hrow).
  cbn [nth]. rewrite Hget1, Hokr, Hget2, Hokc, Hget3. reflexivity.
Qed.

(** An axes object given as an argument, that answers [(0, 1)] to every
    query. *)
Definition given_axes (pixel : Type) (id : nat) : axes pixel :=
  {| ax_handle := Given id; ax_lim := fun _ _ => (0%Q, 1%Q) |}.

(** An image of three planes, two rows and two columns. *)
Definition small_volume : image3d Z :=
  [[[1; 2]; [3; 4]]; [[5; 6]; [7; 8]]; [[9; 10]; [11; 12]]].

Lemma small_volume_rectangular : rectangular small_volume 2 2.
Proof. repeat constructor. Qed.

Lemma orthogonal_views_are_in_bounds_witness :
  exists p1 p2 p3,
    fst (run (orthogonal_views {| g_data := [] |} (given_axes Z 0)
                               (given_axes Z 1) (given_axes Z 2)
                               small_volume)) =
      [imshow (Given 0) (Array2D p1) "gray"; set_axis_off (Given 0);
       set_title (Given 0) "Plane = 1";
       imshow (Given 1) (Array2D p2) "gray"; set_axis_off (Given 1);
       set_title (Given 1) "Row = 1";
       imshow (Given 2) (Array2D p3) "gray"; set_axis_off (Given 2);
       set_title (Given 2) "Column = 1"] /\
    p1 = [[5; 6]; [7; 8]] /\
    p2 = [[3; 4]; [7; 8]; [11; 12]] /\
    p3 = [[2; 4]; [6; 8]; [10; 12]].
Proof.
  destruct (orthogonal_views_are_in_bounds Z {| g_data := [] |}
              (given_axes Z 0) (given_axes Z 1) (given_axes Z 2)
              small_volume 2%nat 2%nat small_volume_rectangular
              ltac:(discriminate) ltac:(lia) ltac:(lia))
    as (p1 & p2 & p3 & Hrun & _).
  exists p1, p2, p3. rewrite Hrun.
  split; [reflexivity|].
  vm_compute in Hrun. injection Hrun as <- <- <-.
  repeat split.
Defined.

Lemma show_plane_titled {pixel : Type} (g : globals pixel) (ax : axes pixel)
      (p : image2d pixel) (cmap title : string) (h : list (call pixel)) :
  title <> ""%string ->
  show_plane g ax p cmap (Some title) h =
  (h ++ [imshow (ax_handle ax) (Array2D p) cmap; set_axis_off (ax_handle ax);
         set_title (ax_handle ax) title], Ok tt).
Proof.
  intros Hne. unfold show_plane, set_title_if.
  destruct (String.eqb_spec title ""); [congruence|].
  unfold bind, emit. rewrite <- !app_assoc. reflexivity.
Qed.

Lemma plot_hist_untitled {pixel : Type} (g : globals pixel) (ax : axes pixel)
      (d : image3d pixel) (h : list (call pixel)) :
  plot_hist g ax d None h =
  (h ++ [hist (ax_handle ax) (ravel pixel d) 256;
         ticklabel_format (ax_handle ax) "y" "scientific" (0, 0)], Ok tt).
Proof.
  unfold plot_hist, set_title_if, bind, emit, ret.
  rewrite <- !app_assoc. reflexivity.
Qed.

(** X17: The figure of lines 250-256 reads plane 32 of each image: when the
    three images have as many planes as [data], it raises [IndexError]
    before any call if [data] has at most 32 planes, and otherwise shows
    the three planes and then the three histograms, in fifteen calls. *)
Theorem exposure_figure_needs_33_planes (pixel : Type) (g : globals pixel)
        (a b c d e f : axes pixel)
        (data gamma_low gamma_high : image3d pixel)
        (Hlow : len gamma_low = len data)
        (Hhigh : len gamma_high = len data) :
  (len data <= 32 ->
     run (exposure_figure g a b c d e f data gamma_low gamma_high) =
       ([], Raise (out_of_bounds 32 0 (len data)))) /\
  (33 <= len data ->
     exists p1 p2 p3,
       nth_error data 32 = Some p1 /\
       nth_error gamma_low 32 = Some p2 /\
       nth_error gamma_high 32 = Some p3 /\
       run (exposure_figure g a b c d e f data gamma_low gamma_high) =
         ([imshow (ax_handle a) (Array2D p1) "gray";
           set_axis_off (ax_handle a); set_title (ax_handle a) "Original";
           imshow (ax_handle b) (Array2D p2) "gray";
           set_axis_off (ax_handle b); set_title (ax_handle b) "Gamma = 0.5";
           imshow (ax_handle c) (Array2D p3) "gray";
           set_axis_off (ax_handle c); set_title (ax_handle c) "Gamma = 1.5";
           hist (ax_handle d) (ravel pixel data) 256;
           ticklabel_format (ax_handle d) "y" "scientific" (0, 0);
           hist (ax_handle e) (ravel pixel gamma_low) 256;
           ticklabel_format (ax_handle e) "y" "scientific" (0, 0);
           hist (ax_handle f) (ravel pixel gamma_high) 256;
           ticklabel_format (ax_handle f) "y" "scientific" (0, 0)],
          Ok tt)).
Proof.
  split.
  - intros Hsmall. unfold exposure_figure.
    rewrite (getitem_past_the_end data 32) by lia. reflexivity.
  - intros Hlarge.
    assert (Hget : forall im : image3d pixel, len im = len data ->
               exists p, getitem im 32 = Some p /\ nth_error im 32 = Some p).
    { intros im Him. destruct (getitem_in_bounds im 32) as [p Hp]; [lia|].
      exists p. split; [exact Hp|]. rewrite <- Hp. symmetry.
      apply (getitem_nonnegative im 32). lia. }
    destruct (Hget data eq_refl) as (p1 & Hg1 & Hn1).
    destruct (Hget gamma_low Hlow) as (p2 & Hg2 & Hn2).
    destruct (Hget gamma_high Hhigh) as (p3 & Hg3 & Hn3).
    exists p1, p2, p3. repeat (split; [assumption|]).
    unfold exposure_figure, run. rewrite Hg1, Hg2, Hg3.
    unfold bind.
    rewrite !show_plane_titled by discriminate.
    rewrite !plot_hist_untitled. reflexivity.
Qed.

Lemma exposure_figure_needs_33_planes_witness :
  run (exposure_figure {| g_data := [] |}
         (given_axes Z 0) (given_axes Z 1) (given_axes Z 2)
         (given_axes Z 3) (given_axes Z 4) (given_axes Z 5)
         small_volume small_volume small_volume) =
  ([], Raise (IndexError "index 32 is out of bounds for axis 0 with size 3")).
Proof.
  apply (exposure_figure_needs_33_planes Z {| g_data := [] |}
           (given_axes Z 0) (given_axes Z 1) (given_axes Z 2)
           (given_axes Z 3) (given_axes Z 4) (given_axes Z 5)
           small_volume small_volume small_volume eq_refl eq_refl).
  unfold len. simpl. lia.
Defined.

Lemma concat_length_uniform {A : Type} (l : list (list A)) (n : nat) :
  Forall (fun x => length x = n) l ->
  length (concat l) = (length l * n)%nat.
Proof.
  intros H. induction H as [|x l Hx _ IH]; [reflexivity|].
  cbn [concat length]. rewrite length_app, Hx, IH. lia.
Qed.

(** X18: [plot_hist] hands every pixel of the image to [ax.hist], in 256 bins:
    on an image of [N] planes of [n_row] rows and [n_col] columns, the
    values are the [N * n_row * n_col] pixels of the image, and a value is
    among them exactly when it is a pixel of some row of some plane. *)
Theorem plot_hist_bins_every_pixel (pixel : Type) (g : globals pixel)
        (ax : axes pixel) (d : image3d pixel) (title : option string)
        (n_row n_col : nat) (Hrect : rectangular d n_row n_col) :
  exists values rest,
    fst (run (plot_hist g ax d title)) =
      hist (ax_handle ax) values 256 ::
      ticklabel_format (ax_handle ax) "y" "scientific" (0, 0) :: rest /\
    (length rest <= 1)%nat /\
    length values = (length d * n_row * n_col)%nat /\
    (forall x, In x values <->
               exists pl rw, In pl d /\ In rw pl /\ In x rw).
Proof.
  exists (ravel pixel d).
  assert (Hrun : exists rest,
             fst (run (plot_hist g ax d title)) =
               hist (ax_handle ax) (ravel pixel d) 256 ::
               ticklabel_format (ax_handle ax) "y" "scientific" (0, 0) :: rest
             /\ (length rest <= 1)%nat).
  { unfold plot_hist, set_title_if, run, bind, emit, ret.
    destruct title as [t|]; [destruct (String.eqb t "")|];
      eexists; split; try reflexivity; simpl; lia. }
  destruct Hrun as (rest & Hrun & Hrest). exists rest.
  split; [exact Hrun|]. split; [exact Hrest|]. split.
  - unfold ravel.
    rewrite (concat_length_uniform (concat d) n_col).
    + rewrite (concat_length_uniform d n_row); [reflexivity|].
      eapply Forall_impl; [|exact Hrect]. intros pl [Hpl _]. exact Hpl.
    + apply Forall_forall. intros rw Hrw.
      apply in_concat in Hrw as (pl & Hpl & Hrw).
      unfold rectangular in Hrect. rewrite Forall_forall in Hrect.
      destruct (Hrect pl Hpl) as [_ Hrows].
      rewrite Forall_forall in Hrows. apply Hrows. exact Hrw.
  - intros x. unfold ravel. rewrite in_concat. split.
    + intros (rw & Hrw & Hx). apply in_concat in Hrw as (pl & Hpl & Hrw).
      exists pl, rw. repeat split; assumption.
    + intros (pl & rw & Hpl & Hrw & Hx). exists rw. split; [|exact Hx].
      apply in_concat. exists pl. split; assumption.
Qed.

Lemma plot_hist_bins_every_pixel_witness :
  exists values rest,
    fst (run (plot_hist {| g_data := [] |} (given_axes Z 0) small_volume
                        None)) =
      hist (Given 0) values 256 ::
      ticklabel_format (Given 0) "y" "scientific" (0, 0) :: rest /\
    length values = 12%nat.
Proof.
  destruct (plot_hist_bins_every_pixel Z {| g_data := [] |} (given_axes Z 0)
              small_volume None 2%nat 2%nat small_volume_rectangular)
    as (values & rest & Hrun & _ & Hlen & _).
  exists values, rest. split; [exact Hrun|exact Hlen].
Defined.

(** *** The planes [explore_slices] offers *)

Lemma display_slice_shows {pixel : Type} created_lim (g : globals pixel)
      (data : image3d pixel) (cmap : string) (plane_arg : option Z)
      (pl : image2d pixel) :
  let plane := match plane_arg with Some p => p | None => default_plane end in
  getitem data plane = Some pl ->
  exists rest,
    run (display_slice created_lim g data cmap plane_arg) =
      ([plt_subplots (20, 5); fig_add_subplot 133 "3d";
        imshow (Created 0) (Array2D pl) cmap; set_axis_off (Created 0);
        set_title (Created 0) ("Plane " ++ str_int plane)%string]
       ++ rest ++ [plt_show], Ok tt).
Proof.
  intros plane Hget. unfold display_slice, run. fold plane. rewrite Hget.
  unfold bind at 1 2. unfold emit at 1 2. cbn [app].
  unfold show_plane, set_title_if.
  replace (String.eqb ("Plane " ++ str_int plane) "") with false
    by reflexivity.
  unfold bind at 1 2 3 4. unfold emit at 1 2 3. cbn [app].
  destruct (slice_in_3D_appends g (created created_lim 1) plane
              [plt_subplots (20, 5); fig_add_subplot 133 "3d";
               imshow (Created 0) (Array2D pl) cmap;
               set_axis_off (Created 0);
               set_title (Created 0) ("Plane " ++ str_int plane)%string])
    as (new & Hnew & _).
  exists new. unfold bind, emit. cbn [created ax_handle] in *.
  rewrite Hnew, <- app_assoc. reflexivity.
Qed.

(** The property C10 states: the slider's range is exactly the set of the
    planes [data[plane]] accepts; on an input of at most 34 planes the
    call of [explore_slices] runs into [data[34]], out of bounds; on an
    input of at least 35 planes the planes of the slider are in bounds. *)
Definition plane_bounds_as_stated (pixel : Type) : Prop :=
  forall created_lim (g : globals pixel) (data : image3d pixel)
         (cmap : string),
    (forall p, in_slider_range data p <->
               exists pl, getitem data p = Some pl) /\
    (len data <= 34 ->
       exists h e, run (explore_slices created_lim g data cmap) =
                   (h, Raise e)) /\
    (35 <= len data ->
       forall p, in_slider_range data p ->
                 exists pl, getitem data p = Some pl).



End Helpers.

(** ** The contrast transforms (lines 242-305)

    [ski.exposure.adjust_gamma], [ski.exposure.rescale_intensity] and
    [np.percentile] are called by the script and defined outside it;
    [ski.exposure.equalize_hist] (line 267) is not modelled.  Intensities
    are real numbers here. *)

Module Exposure.
Import Reals Lra.
Local Open Scope R_scope.

Inductive dtype := uint8 | uint16 | float32 | float64.

Definition is_floating (d : dtype) : bool :=
  match d with
  | float32 | float64 => true
  | uint8 | uint16 => false
  end.

(** An array of three dimensions: its element type and its planes. *)
Record ndarray := {
  arr_dtype : dtype;
  arr_planes : list (list (list R))
}.

(** [a.shape], [a.ravel()]. *)
Definition shape (a : ndarray) : nat * nat * nat :=
  (length (arr_planes a),
   length (hd [] (arr_planes a)),
   length (hd [] (hd [] (arr_planes a)))).

Definition ravel (a : ndarray) : list R := concat (concat (arr_planes a)).

(** [a.min()], [a.max()] on the flattened array. *)
Definition amin (l : list R) : R := fold_right Rmin (hd 0 l) l.
Definition amax (l : list R) : R := fold_right Rmax (hd 0 l) l.

(** [max - min] of an array: its dynamic range. *)
Definition dynamic_range (a : ndarray) : R := amax (ravel a) - amin (ravel a).

(** Modelled from the spec: a transform is an intensity remapping that
    produces a new array of the same shape, of floating-point intensities:
    every pixel [x] is replaced by [f x]. *)
Definition remap (f : R -> R) (out : dtype) (a : ndarray) : ndarray :=
  {| arr_dtype := out;
     arr_planes := map (map (map f)) (arr_planes a) |}.

(** The floating-point type of a result: a floating-point input keeps its
    type. *)
Definition float_of (d : dtype) : dtype :=
  if is_floating d then d else float64.

(** [x ** gamma] for an intensity [x >= 0] and [gamma > 0]; the power of a
    negative intensity is not modelled (it is given as [0]). *)
Definition power (x gamma : R) : R :=
  if Rlt_dec 0 x then Rpower x gamma else 0.

(** Modelled from the spec: gamma correction, [ski.exposure.adjust_gamma],
    is a power-law pixel-intensity remapping: [gamma] is the exponent of
    the power law applied to each pixel (comment of lines 227-230). *)
Definition adjust_gamma (image : ndarray) (gamma : R) : ndarray :=
  remap (fun x => power x gamma) (float_of (arr_dtype image)) image.

(** Lines 242-246. *)
Definition gamma_low_val : R := 0.5.
Definition gamma_high_val : R := 1.5.
Definition gamma_low (data : ndarray) : ndarray :=
  adjust_gamma data gamma_low_val.
Definition gamma_high (data : ndarray) : ndarray :=
  adjust_gamma data gamma_high_val.

(** [np.clip(x, lo, hi)]. *)
Definition clip (x lo hi : R) : R := Rmin (Rmax x lo) hi.

(** Modelled from the spec: percentile clipping,
    [ski.exposure.rescale_intensity(image, in_range, out_range)], rescales
    the intensities using [in_range = (imin, imax)] as the input range:
    intensities are clipped to the input range, which is then mapped
    linearly onto the output range [(omin, omax)]. *)
Definition rescale (imin imax omin omax x : R) : R :=
  (clip x imin imax - imin) / (imax - imin) * (omax - omin) + omin.

Definition rescale_intensity (image : ndarray) (in_range out_range : R * R)
           (out_dtype : dtype) : ndarray :=
  remap (rescale (fst in_range) (snd in_range) (fst out_range) (snd out_range))
        out_dtype image.

(** Sorting, for the percentiles. *)
Fixpoint insert_sorted (x : R) (l : list R) : list R :=
  match l with
  | [] => [x]
  | y :: l' => if Rle_dec x y then x :: l else y :: insert_sorted x l'
  end.

Definition sorted (l : list R) : list R := fold_right insert_sorted [] l.

(** Modelled from the spec: the [q]-th percentile of the intensities,
    [np.percentile(a, q)] with [q = qnum / qden] percent, by linear
    interpolation between the two closest ranks of the sorted
    intensities. *)
Definition percentile (l : list R) (qnum qden : nat) : R :=
  let s := sorted l in
  let scaled := ((length s - 1) * qnum)%nat in
  let unit := (qden * 100)%nat in
  let lo := (scaled / unit)%nat in
  let hi := Nat.min (lo + 1) (length s - 1) in
  let frac := INR (scaled mod unit) / INR unit in
  nth lo s 0 + frac * (nth hi s 0 - nth lo s 0).

(** Line 301: [vmin, vmax = np.percentile(data, q=(0.5, 99.5))]. *)
Definition vmin (data : ndarray) : R := percentile (ravel data) 1 2.
Definition vmax (data : ndarray) : R := percentile (ravel data) 199 2.

(** *** Intensities of a remapped array *)

Lemma ravel_remap (f : R -> R) (out : dtype) (a : ndarray) :
  ravel (remap f out a) = map f (ravel a).
Proof.
  unfold ravel, remap. cbn [arr_planes].
  rewrite !concat_map. reflexivity.
Qed.

(** *** Minimum and maximum of a list of intensities *)

Lemma fold_Rmax_spec (d : R) (l : list R) :
  (fold_right Rmax d l = d \/ In (fold_right Rmax d l) l) /\
  d <= fold_right Rmax d l /\
  forall x, In x l -> x <= fold_right Rmax d l.
Proof.
  induction l as [|y l IH]; cbn [fold_right].
  - split; [left; reflexivity|]. split; [lra|intros x []].
  - destruct IH as (Hin & Hd & Hall).
    destruct (Rle_dec y (fold_right Rmax d l)) as [Hle|Hgt];
      [rewrite Rmax_right by exact Hle|rewrite Rmax_left by lra].
    + split; [destruct Hin; [left|right; right]; assumption|].
      split; [exact Hd|].
      intros x [<-|Hx]; [exact Hle|apply Hall; exact Hx].
    + split; [right; left; reflexivity|]. split; [lra|].
      intros x [<-|Hx]; [lra|]. specialize (Hall x Hx). lra.
Qed.

Lemma fold_Rmin_spec (d : R) (l : list R) :
  (fold_right Rmin d l = d \/ In (fold_right Rmin d l) l) /\
  fold_right Rmin d l <= d /\
  forall x, In x l -> fold_right Rmin d l <= x.
Proof.
  induction l as [|y l IH]; cbn [fold_right].
  - split; [left; reflexivity|]. split; [lra|intros x []].
  - destruct IH as (Hin & Hd & Hall).
    destruct (Rle_dec y (fold_right Rmin d l)) as [Hle|Hgt];
      [rewrite Rmin_left by exact Hle|rewrite Rmin_right by lra].
    + split; [right; left; reflexivity|]. split; [lra|].
      intros x [<-|Hx]; [lra|]. specialize (Hall x Hx). lra.
    + split; [destruct Hin; [left|right; right]; assumption|].
      split; [exact Hd|].
      intros x [<-|Hx]; [lra|apply Hall; exact Hx].
Qed.

Lemma amax_in (l : list R) : l <> [] -> In (amax l) l.
Proof.
  destruct l as [|d l]; [congruence|]. intros _. unfold amax. cbn [hd].
  destruct (fold_Rmax_spec d (d :: l)) as ([Heq|Hin] & _); [|exact Hin].
  rewrite Heq. left. reflexivity.
Qed.

Lemma amax_ge (l : list R) (x : R) : In x l -> x <= amax l.
Proof. intros Hx. unfold amax. apply fold_Rmax_spec. exact Hx. Qed.

Lemma amin_in (l : list R) : l <> [] -> In (amin l) l.
Proof.
  destruct l as [|d l]; [congruence|]. intros _. unfold amin. cbn [hd].
  destruct (fold_Rmin_spec d (d :: l)) as ([Heq|Hin] & _); [|exact Hin].
  rewrite Heq. left. reflexivity.
Qed.

Lemma amin_le (l : list R) (x : R) : In x l -> amin l <= x.
Proof. intros Hx. unfold amin. apply fold_Rmin_spec. exact Hx. Qed.

(** *** Gamma correction *)

Lemma Rpower_base_1 (c : R) : Rpower 1 c = 1.
Proof. unfold Rpower. rewrite ln_1, Rmult_0_r. apply exp_0. Qed.

Lemma power_unit_interval (x gamma : R) :
  0 <= gamma -> 0 <= x <= 1 -> 0 <= power x gamma <= 1.
Proof.
  intros Hg [Hlo Hhi]. unfold power.
  destruct (Rlt_dec 0 x) as [Hpos|_]; [|lra]. split.
  - left. unfold Rpower. apply exp_pos.
  - rewrite <- (Rpower_base_1 gamma).
    apply Rle_Rpower_l; [exact Hg|]. split; assumption.
Qed.

Lemma power_quarter_half : power (1 / 4) 0.5 = 1 / 2.
Proof.
  unfold power. destruct (Rlt_dec 0 (1 / 4)) as [Hpos|Hneg]; [|lra].
  replace 0.5 with (/ 2) by lra.
  rewrite Rpower_sqrt by exact Hpos.
  apply sqrt_lem_1; lra.
Qed.

(** The property C3 states: when the intensities of [image] lie in the
    range of [data], between its minimum and its maximum, so do the
    intensities of the gamma-corrected image. *)
Definition stays_in_original_range (data image : ndarray) (gamma : R)
  : Prop :=
  (forall x, In x (ravel image) ->
             amin (ravel data) <= x <= amax (ravel data)) ->
  forall y, In y (ravel (adjust_gamma image gamma)) ->
            amin (ravel data) <= y <= amax (ravel data).

(** An image of one pixel, of intensity [1/4]. *)
Definition quarter_image : ndarray :=
  {| arr_dtype := float64; arr_planes := [[[1 / 4]]] |}.

Lemma power_quarter_three_halves : power (1 / 4) 1.5 = 1 / 8.
Proof.
  unfold power. destruct (Rlt_dec 0 (1 / 4)) as [Hpos|Hneg]; [|lra].
  replace 1.5 with (1 + / 2) by lra.
  rewrite Rpower_plus, Rpower_1, Rpower_sqrt by exact Hpos.
  replace (sqrt (1 / 4)) with (1 / 2); [lra|].
  symmetry. apply sqrt_lem_1; lra.
Qed.

Lemma amax_singleton (x : R) : amax [x] = x.
Proof.
  destruct (amax_in [x]) as [H|[]]; [discriminate|]. symmetry. exact H.
Qed.

Lemma amin_singleton (x : R) : amin [x] = x.
Proof.
  destruct (amin_in [x]) as [H|[]]; [discriminate|]. symmetry. exact H.
Qed.

(** C3, as stated, fails: gamma correction is a power law on [[0, 1]], not
    on the range of the data.  On an image whose only intensity is 1/4,
    which is its minimum and its maximum, the exponent 0.5 gives 1/2,
    above the maximum, and the exponent 1.5 gives 1/8, below the
    minimum. *)
Lemma gamma_leaves_the_range_of_the_image :
  ~ stays_in_original_range quarter_image quarter_image gamma_low_val /\
  ~ stays_in_original_range quarter_image quarter_image gamma_high_val.
Proof.
  unfold stays_in_original_range, gamma_low_val, gamma_high_val.
  change (ravel quarter_image) with [1 / 4].
  rewrite amax_singleton, amin_singleton.
  assert (Hin : forall x, In x [1 / 4] -> 1 / 4 <= x <= 1 / 4).
  { intros x [<-|[]]. lra. }
  split; intros H; specialize (H Hin).
  - specialize (H (1 / 2)).
    change (ravel (adjust_gamma quarter_image 0.5))
      with [power (1 / 4) 0.5] in H.
    rewrite power_quarter_half in H.
    specialize (H (or_introl eq_refl)). lra.
  - specialize (H (1 / 8)).
    change (ravel (adjust_gamma quarter_image 1.5))
      with [power (1 / 4) 1.5] in H.
    rewrite power_quarter_three_halves in H.
    specialize (H (or_introl eq_refl)). lra.
Qed.

(** C3, amended: when the original intensity range is [[0, 1]]
    ([min(data) = 0] and [max(data) = 1], the full range [img_as_float]
    gives at line 58), then for every float image whose intensities lie in
    that range the gamma-corrected output, with the exponents 0.5 and 1.5
    of the script and with any exponent that is not negative, stays within
    that range. *)
Theorem gamma_stays_in_the_unit_range (data image : ndarray) (gamma : R)
        (Hgamma : 0 <= gamma)
        (Hmin : amin (ravel data) = 0) (Hmax : amax (ravel data) = 1) :
  stays_in_original_range data image gamma.
Proof.
  unfold stays_in_original_range. rewrite Hmin, Hmax.
  intros Hrange y Hy. unfold adjust_gamma in Hy. rewrite ravel_remap in Hy.
  apply in_map_iff in Hy as (x & <- & Hx).
  apply power_unit_interval; [exact Hgamma|apply Hrange; exact Hx].
Qed.

(** An image of the two intensities 0 and 1. *)
Definition black_and_white : ndarray :=
  {| arr_dtype := float64; arr_planes := [[[0; 1]]] |}.

Lemma gamma_stays_in_the_unit_range_witness :
  0 <= power (1 / 4) gamma_low_val <= 1 /\
  0 <= power (1 / 4) gamma_high_val <= 1.
Proof.
  assert (Hmin : amin (ravel black_and_white) = 0).
  { change (ravel black_and_white) with [0; 1]. unfold amin.
    cbn [hd fold_right].
    rewrite (Rmin_right 1 0), (Rmin_left 0 0) by lra. reflexivity. }
  assert (Hmax : amax (ravel black_and_white) = 1).
  { change (ravel black_and_white) with [0; 1]. unfold amax.
    cbn [hd fold_right].
    rewrite (Rmax_left 1 0), (Rmax_right 0 1) by lra. reflexivity. }
  assert (Hrange : forall x, In x (ravel quarter_image) ->
                     amin (ravel black_and_white) <= x
                     <= amax (ravel black_and_white)).
  { intros x [<-|[]]. rewrite Hmin, Hmax. lra. }
  assert (Hlow : 0 <= gamma_low_val) by (unfold gamma_low_val; lra).
  assert (Hhigh : 0 <= gamma_high_val) by (unfold gamma_high_val; lra).
  pose proof (gamma_stays_in_the_unit_range black_and_white quarter_image
                gamma_low_val Hlow Hmin Hmax Hrange
                (power (1 / 4) gamma_low_val) (or_introl eq_refl)) as H1.
  pose proof (gamma_stays_in_the_unit_range black_and_white quarter_image
                gamma_high_val Hhigh Hmin Hmax Hrange
                (power (1 / 4) gamma_high_val) (or_introl eq_refl)) as H2.
  rewrite Hmin, Hmax in H1, H2. split; assumption.
Defined.

(** *** Percentiles *)

Lemma insert_sorted_in (x y : R) (l : list R) :
  In y (insert_sorted x l) <-> y = x \/ In y l.
Proof.
  induction l as [|z l IH]; cbn [insert_sorted].
  - simpl. intuition.
  - destruct (Rle_dec x z); simpl; [intuition|].
    rewrite IH. intuition.
Qed.

Lemma insert_sorted_length (x : R) (l : list R) :
  length (insert_sorted x l) = S (length l).
Proof.
  induction l as [|z l IH]; cbn [insert_sorted]; [reflexivity|].
  destruct (Rle_dec x z); simpl; [reflexivity|]. rewrite IH. reflexivity.
Qed.

Lemma sorted_in (y : R) (l : list R) : In y (sorted l) <-> In y l.
Proof.
  unfold sorted. induction l as [|x l IH]; cbn [fold_right]; [tauto|].
  rewrite insert_sorted_in, IH. simpl. intuition.
Qed.

Lemma sorted_length (l : list R) : length (sorted l) = length l.
Proof.
  unfold sorted. induction l as [|x l IH]; cbn [fold_right]; [reflexivity|].
  rewrite insert_sorted_length, IH. reflexivity.
Qed.

Lemma percentile_between (l : list R) (qnum qden : nat) :
  l <> [] -> (0 < qden)%nat -> (qnum <= qden * 100)%nat ->
  amin l <= percentile l qnum qden <= amax l.
Proof.
  intros Hne Hden Hq. unfold percentile.
  set (s := sorted l). set (n := length s).
  set (unit := (qden * 100)%nat).
  set (scaled := ((n - 1) * qnum)%nat).
  set (lo := (scaled / unit)%nat).
  set (hi := Nat.min (lo + 1) (n - 1)).
  assert (Hn : (0 < n)%nat).
  { unfold n, s. rewrite sorted_length. destruct l; [congruence|simpl; lia]. }
  assert (Hunit : (0 < unit)%nat) by (unfold unit; lia).
  assert (Hlo : (lo < n)%nat).
  { assert (lo <= n - 1)%nat; [|lia].
    unfold lo. apply Nat.Div0.div_le_upper_bound.
    unfold scaled. rewrite Nat.mul_comm. apply Nat.mul_le_mono_r. exact Hq. }
  assert (Hhi : (hi < n)%nat) by (unfold hi; lia).
  assert (Hbounds : forall k, (k < n)%nat -> amin l <= nth k s 0 <= amax l).
  { intros k Hk. assert (Hin : In (nth k s 0) l).
    { apply sorted_in. apply nth_In. exact Hk. }
    split; [apply amin_le|apply amax_ge]; exact Hin. }
  pose proof (Hbounds lo Hlo) as Ha. pose proof (Hbounds hi Hhi) as Hb.
  assert (Hfrac : 0 <= INR (scaled mod unit) / INR unit <= 1).
  { assert (Hu : 0 < INR unit) by (apply lt_0_INR; exact Hunit).
    assert (Hm : (scaled mod unit < unit)%nat)
      by (apply Nat.mod_upper_bound; lia).
    apply lt_INR in Hm. pose proof (pos_INR (scaled mod unit)) as Hp.
    split.
    - apply Rmult_le_pos; [exact Hp|]. left. apply Rinv_0_lt_compat. exact Hu.
    - apply Rmult_le_reg_r with (INR unit); [exact Hu|].
      unfold Rdiv. rewrite Rmult_assoc, Rinv_l by lra. lra. }
  set (f := INR (scaled mod unit) / INR unit) in *.
  set (a := nth lo s 0) in *. set (b := nth hi s 0) in *.
  split; nra.
Qed.

Section Library.

(** The intensity range the library associates with [np.float32]. *)
Variable float32_range : R * R.

(** Lines 303-305: [rescale_intensity(data, in_range=(vmin, vmax),
    out_range=np.float32)]. *)
Definition clipped_data (data : ndarray) : ndarray :=
  rescale_intensity data (vmin data, vmax data) float32_range float32.

End Library.

(** *** Percentile clipping *)

Lemma clip_between (x lo hi : R) : lo <= hi -> lo <= clip x lo hi <= hi.
Proof.
  intros H. unfold clip, Rmin, Rmax.
  destruct (Rle_dec x lo); destruct (Rle_dec _ hi); lra.
Qed.

Lemma clip_low (x lo hi : R) : lo <= hi -> x <= lo -> clip x lo hi = lo.
Proof.
  intros H Hx. unfold clip, Rmin, Rmax.
  destruct (Rle_dec x lo); destruct (Rle_dec _ hi); lra.
Qed.

Lemma clip_high (x lo hi : R) : lo <= hi -> hi <= x -> clip x lo hi = hi.
Proof.
  intros H Hx. unfold clip, Rmin, Rmax.
  destruct (Rle_dec x lo); destruct (Rle_dec _ hi); lra.
Qed.

Lemma rescale_between (imin imax omin omax x : R) :
  imin < imax -> omin <= omax ->
  omin <= rescale imin imax omin omax x <= omax.
Proof.
  intros Hin Hout. unfold rescale.
  pose proof (clip_between x imin imax ltac:(lra)) as [Hlo Hhi].
  set (c := clip x imin imax) in *.
  assert (Ht : 0 <= (c - imin) / (imax - imin) <= 1).
  { split.
    - apply Rmult_le_pos; [lra|]. left. apply Rinv_0_lt_compat. lra.
    - apply Rmult_le_reg_r with (imax - imin); [lra|].
      unfold Rdiv. rewrite Rmult_assoc, Rinv_l by lra. lra. }
  set (t := (c - imin) / (imax - imin)) in *.
  split; nra.
Qed.

Lemma rescale_low (imin imax omin omax x : R) :
  imin < imax -> x <= imin -> rescale imin imax omin omax x = omin.
Proof.
  intros Hin Hx. unfold rescale. rewrite clip_low by lra.
  unfold Rdiv. replace (imin - imin) with 0 by lra. lra.
Qed.

Lemma rescale_high (imin imax omin omax x : R) :
  imin < imax -> imax <= x -> rescale imin imax omin omax x = omax.
Proof.
  intros Hin Hx. unfold rescale. rewrite clip_high by lra.
  unfold Rdiv. rewrite Rinv_r by lra. lra.
Qed.

Lemma rescale_intensity_dynamic_range (image : ndarray)
      (imin imax omin omax : R) (out : dtype) :
  ravel image <> [] -> imin < imax -> omin <= omax ->
  amin (ravel image) <= imin -> imax <= amax (ravel image) ->
  amin (ravel (rescale_intensity image (imin, imax) (omin, omax) out)) = omin
  /\
  amax (ravel (rescale_intensity image (imin, imax) (omin, omax) out)) = omax.
Proof.
  intros Hne Hin Hout Hmin Hmax.
  unfold rescale_intensity. rewrite ravel_remap. cbn [fst snd].
  set (f := rescale imin imax omin omax).
  assert (Hne' : map f (ravel image) <> []).
  { destruct (ravel image); [congruence|discriminate]. }
  split; apply Rle_antisym.
  - apply Rle_trans with (f (amin (ravel image))).
    + apply amin_le, in_map, amin_in. exact Hne.
    + unfold f. rewrite rescale_low by assumption. lra.
  - destruct (proj1 (in_map_iff f _ _) (amin_in _ Hne')) as (x & Hx & _).
    rewrite <- Hx. apply rescale_between; assumption.
  - destruct (proj1 (in_map_iff f _ _) (amax_in _ Hne')) as (x & Hx & _).
    rewrite <- Hx. apply rescale_between; assumption.
  - apply Rle_trans with (f (amax (ravel image))).
    + unfold f. rewrite rescale_high by assumption. lra.
    + apply amax_ge, in_map, amax_in. exact Hne.
Qed.

Lemma percentile_two (a b : R) (qnum : nat) :
  a <= b -> (qnum < 200)%nat ->
  percentile [a; b] qnum 2 = a + INR qnum / 200 * (b - a).
Proof.
  intros Hab Hq. unfold percentile, sorted.
  cbn [fold_right insert_sorted].
  destruct (Rle_dec a b) as [_|Hn]; [|lra].
  cbn [length]. change (2 - 1)%nat with 1%nat. change (2 * 100)%nat with 200%nat.
  rewrite Nat.mul_1_l, Nat.div_small, Nat.mod_small by exact Hq.
  change (Nat.min (0 + 1) 1) with 1%nat. cbn [nth].
  replace (INR 200) with 200; [reflexivity|].
  rewrite INR_IZR_INZ. reflexivity.
Qed.

(** The property C5 states, for the clipping of lines 301-305. *)
Definition clipping_reduces_dynamic_range (float32_range : R * R)
           (data : ndarray) : Prop :=
  dynamic_range (clipped_data float32_range data) <= dynamic_range data.

(** An image of two pixels, of intensities [0] and [w]. *)
Definition two_pixels (w : R) : ndarray :=
  {| arr_dtype := float64; arr_planes := [[[0; w]]] |}.

Lemma two_pixels_percentiles (w : R) :
  0 < w ->
  vmin (two_pixels w) = w / 200 /\ vmax (two_pixels w) = 199 * w / 200.
Proof.
  intros Hw. unfold vmin, vmax.
  change (ravel (two_pixels w)) with [0; w].
  rewrite !percentile_two by (lra || lia).
  replace (INR 1) with 1 by reflexivity.
  replace (INR 199) with 199 by (rewrite INR_IZR_INZ; reflexivity).
  lra.
Qed.

Lemma two_pixels_dynamic_range (w : R) :
  0 < w -> dynamic_range (two_pixels w) = w.
Proof.
  intros Hw. unfold dynamic_range.
  change (ravel (two_pixels w)) with [0; w].
  unfold amax, amin. cbn [hd fold_right].
  rewrite (Rmax_left w 0), (Rmax_right 0 w) by lra.
  rewrite (Rmin_right w 0), (Rmin_left 0 0) by lra. lra.
Qed.

Lemma percentiles_within_the_image (data : ndarray) :
  ravel data <> [] ->
  amin (ravel data) <= vmin data /\ vmax data <= amax (ravel data).
Proof.
  intros Hne. unfold vmin, vmax. split.
  - apply (percentile_between (ravel data) 1 2 Hne); lia.
  - apply (percentile_between (ravel data) 199 2 Hne); lia.
Qed.

Lemma two_pixels_stretched (float32_range : R * R) (w : R) :
  0 < w -> fst float32_range <= snd float32_range ->
  dynamic_range (clipped_data float32_range (two_pixels w)) =
  snd float32_range - fst float32_range.
Proof.
  intros Hw Hout. destruct float32_range as [omin omax]. cbn [fst snd] in *.
  destruct (two_pixels_percentiles w Hw) as [Hvmin Hvmax].
  assert (Hne : ravel (two_pixels w) <> []) by discriminate.
  destruct (percentiles_within_the_image (two_pixels w) Hne) as [Hlo Hhi].
  unfold dynamic_range, clipped_data.
  destruct (rescale_intensity_dynamic_range (two_pixels w)
              (vmin (two_pixels w)) (vmax (two_pixels w)) omin omax float32)
    as [Hmin Hmax]; try assumption; [rewrite Hvmin, Hvmax; lra|].
  rewrite Hmin, Hmax. reflexivity.
Qed.

(** C5, as stated, fails: the rescaling maps the percentile bounds onto the
    bounds of the output range, whatever the input's dynamic range is.  On
    an image of the two intensities 0 and 1/2, with the output range
    [(0, 1)], the output's dynamic range is 1 and the input's is 1/2; and
    for no output range of positive width does the claim hold on every
    image. *)
Lemma clipping_can_widen_the_dynamic_range :
  ~ clipping_reduces_dynamic_range (0, 1) (two_pixels (1 / 2)) /\
  ~ (exists float32_range : R * R,
        fst float32_range < snd float32_range /\
        forall data, clipping_reduces_dynamic_range float32_range data).
Proof.
  split.
  - unfold clipping_reduces_dynamic_range.
    rewrite two_pixels_stretched, two_pixels_dynamic_range;
      cbn [fst snd]; lra.
  - intros ([omin omax] & Hwidth & Hall). cbn [fst snd] in Hwidth.
    specialize (Hall (two_pixels ((omax - omin) / 2))).
    unfold clipping_reduces_dynamic_range in Hall.
    rewrite two_pixels_stretched, two_pixels_dynamic_range in Hall;
      cbn [fst snd] in *; lra.
Qed.

(** C5, amended: rescaling the intensities with [in_range] set to the
    input's 0.5 and 99.5 percentile values stretches them over the whole
    output range: when the two percentiles differ, the output's dynamic
    range is the width of the output range, whatever the input's dynamic
    range is; it is at most the input's dynamic range exactly when the
    input spans at least that width. *)
Theorem clipping_stretches_to_the_output_range
        (float32_range : R * R) (data : ndarray)
        (Hne : ravel data <> [])
        (Hin : vmin data < vmax data)
        (Hout : fst float32_range <= snd float32_range) :
  dynamic_range (clipped_data float32_range data) =
    snd float32_range - fst float32_range /\
  (clipping_reduces_dynamic_range float32_range data <->
   snd float32_range - fst float32_range <= dynamic_range data).
Proof.
  destruct float32_range as [omin omax]. cbn [fst snd] in *.
  destruct (percentiles_within_the_image data Hne) as [Hlo Hhi].
  assert (Hwidth : dynamic_range (clipped_data (omin, omax) data) = omax - omin).
  { unfold dynamic_range, clipped_data.
    destruct (rescale_intensity_dynamic_range data
                (vmin data) (vmax data) omin omax float32)
      as [Hmin Hmax]; try assumption.
    rewrite Hmin, Hmax. reflexivity. }
  split; [exact Hwidth|].
  unfold clipping_reduces_dynamic_range. rewrite Hwidth. tauto.
Qed.

Lemma clipping_stretches_to_the_output_range_witness :
  dynamic_range (clipped_data (0, 1) (two_pixels (1 / 2))) = 1 - 0.
Proof.
  assert (Hw : 0 < 1 / 2) by lra.
  destruct (two_pixels_percentiles (1 / 2) Hw) as [Hvmin Hvmax].
  apply (clipping_stretches_to_the_output_range (0, 1) (two_pixels (1 / 2))).
  - discriminate.
  - rewrite Hvmin, Hvmax. lra.
  - cbn [fst snd]. lra.
Defined.

End Exposure.
